(** * Job lifecycle and polling of the TestOps dashboard client

    A shallow embedding of the client-side job subsystem:
    - [usePolling] and [useJobWatcher] (frontend/src/hooks), as a step
      function over the events of the single-threaded event loop;
    - the per-page job list kept in React state and mirrored to
      [localStorage] (Testcases, Autotests, Standards and Optimization pages);
    - the result-metadata extraction [getViolationsCount].

    JavaScript values are modelled by [JsVal]; objects are finite maps from
    property names to values.  A thrown exception is the [Throw] completion. *)

From stdpp Require Import gmap strings list.
From Stdlib Require Import ZArith.

Set Warnings "-register-all".

Open Scope Z_scope.

(* ===================================================================== *)
(** ** JavaScript values and completions                                  *)
(* ===================================================================== *)

Module Js.

(** Numbers are restricted to integers: the code only counts and compares. *)
Inductive JsVal : Type :=
| JUndefined
| JNull
| JBool (b : bool)
| JNum (z : Z)
| JStr (s : string)
| JArr (l : list JsVal)
| JObj (m : gmap string JsVal).

Abbreviation obj := (gmap string JsVal).

(** The result of evaluating a piece of code: a value, or a thrown error. *)
Inductive Completion (A : Type) : Type :=
| Normal (a : A)
| Throw (e : string).
Arguments Normal {A} a.
Arguments Throw {A} e.

#[global] Instance completion_bind : MBind Completion := fun A B k c =>
  match c with
  | Normal a => k a
  | Throw e => Throw e
  end.

(** [try { c } catch (e) { h e }] *)
Definition try_catch {A} (c : Completion A) (h : string -> Completion A) : Completion A :=
  match c with
  | Normal a => Normal a
  | Throw e => h e
  end.

(** [v === undefined] *)
Definition is_undefined (v : JsVal) : bool :=
  match v with JUndefined => true | _ => false end.

(** [v == null], the test made by [?.] *)
Definition nullish (v : JsVal) : bool :=
  match v with JUndefined | JNull => true | _ => false end.

(** [Boolean(v)] *)
Definition truthy (v : JsVal) : bool :=
  match v with
  | JUndefined | JNull => false
  | JBool b => b
  | JNum z => negb (z =? 0)
  | JStr s => negb (bool_decide (s = ""))
  | JArr _ | JObj _ => true
  end.

(** [v === "lit"] for a string literal. *)
Definition is_str (v : JsVal) (lit : string) : bool :=
  match v with JStr s => bool_decide (s = lit) | _ => false end.

(** Property read on an object literal or parsed object. *)
Definition prop (m : obj) (k : string) : JsVal := default JUndefined (m !! k).

(** [v.k] for a property name [k] that is not an array index.  Reading a
    property of [null] or [undefined] throws a TypeError. *)
Definition member (v : JsVal) (k : string) : Completion JsVal :=
  match v with
  | JUndefined | JNull => Throw "TypeError"
  | JObj m => Normal (prop m k)
  | JArr l =>
      Normal (if bool_decide (k = "length") then JNum (Z.of_nat (length l)) else JUndefined)
  | JStr s =>
      Normal (if bool_decide (k = "length") then JNum (Z.of_nat (String.length s)) else JUndefined)
  | JBool _ | JNum _ => Normal JUndefined
  end.

(** [v?.k] *)
Definition opt_member (v : JsVal) (k : string) : Completion JsVal :=
  if nullish v then Normal JUndefined else member v k.

(** Own enumerable properties copied by [{...v}].  Only objects reach the
    spreads of this program (see [updateJobStatus]). *)
Definition own_props (v : JsVal) : obj :=
  match v with JObj m => m | _ => ∅ end.

(** [{ ...a, ...b }]: properties of [b] override those of [a]. *)
Definition spread (a b : obj) : obj := b ∪ a.

(** [arr.map(f)]; calling [.map] on anything but an array throws. *)
Fixpoint map_elems (f : JsVal -> Completion JsVal) (l : list JsVal) : Completion (list JsVal) :=
  match l with
  | [] => Normal []
  | x :: l' =>
      y ← f x;
      ys ← map_elems f l';
      Normal (y :: ys)
  end.

Definition array_map (f : JsVal -> Completion JsVal) (arr : JsVal) : Completion JsVal :=
  match arr with
  | JArr l => ys ← map_elems f l; Normal (JArr ys)
  | _ => Throw "TypeError"
  end.

End Js.

Import Js.

(* ===================================================================== *)
(** ** Result metadata extraction (StandardsPage.tsx, StandardsJobItem)    *)
(* ===================================================================== *)

(** [getViolationsCount], statement by statement. *)
Definition getViolationsCount (job : JsVal) : Completion JsVal :=
  c ← member job "violations_count";
  if negb (is_undefined c) then Normal c
  else
    r ← member job "result";
    v ← opt_member r "violations";
    n ← opt_member v "length";
    if truthy n then
      r' ← member job "result";
      v' ← member r' "violations";
      member v' "length"
    else
      w ← member job "violations";
      m ← opt_member w "length";
      if truthy m then
        w' ← member job "violations";
        member w' "length"
      else Normal (JNum 0).

(** The same extraction on the Optimization page. *)
Definition getRecommendationsCount (job : JsVal) : Completion JsVal :=
  c ← member job "recommendations_count";
  if negb (is_undefined c) then Normal c
  else
    r ← member job "result";
    v ← opt_member r "recommendations";
    n ← opt_member v "length";
    if truthy n then
      r' ← member job "result";
      v' ← member r' "recommendations";
      member v' "length"
    else
      w ← member job "recommendations";
      m ← opt_member w "length";
      if truthy m then
        w' ← member job "recommendations";
        member w' "length"
      else Normal (JNum 0).

(** The precedence list as the specification words it: named shapes probed
    in order, the first applicable one gives the count, zero otherwise. *)
Definition Probe : Type := obj -> option JsVal.

Definition probe_explicit_count : Probe := fun job =>
  match prop job "violations_count" with
  | JUndefined => None
  | c => Some c
  end.

Definition length_if_any (v : JsVal) : option JsVal :=
  match v with
  | JArr l => if bool_decide (l = []) then None else Some (JNum (Z.of_nat (length l)))
  | JStr s => if bool_decide (s = "") then None else Some (JNum (Z.of_nat (String.length s)))
  | JObj m => if truthy (prop m "length") then Some (prop m "length") else None
  | _ => None
  end.

Definition probe_nested_violations : Probe := fun job =>
  match prop job "result" with
  | JObj r => length_if_any (prop r "violations")
  | _ => None
  end.

Definition probe_top_violations : Probe := fun job =>
  length_if_any (prop job "violations").

Definition violations_probes : list Probe :=
  [probe_explicit_count; probe_nested_violations; probe_top_violations].

Fixpoint first_applicable (probes : list Probe) (job : obj) : JsVal :=
  match probes with
  | [] => JNum 0
  | p :: rest =>
      match p job with
      | Some v => v
      | None => first_applicable rest job
      end
  end.

Definition violations_count_spec (job : obj) : JsVal :=
  first_applicable violations_probes job.

(* ===================================================================== *)
(** ** The persisted job lists (pages/*Page.tsx)                          *)
(* ===================================================================== *)

(** The four pages that keep a job list. *)
Inductive Page : Type := Testcases | Autotests | Standards | Optimization.

(** The key each page passes to [localStorage.getItem] and [setItem]. *)
Definition page_key (p : Page) : string :=
  match p with
  | Testcases => "testops_jobs"
  | Autotests => "testops_autotest_jobs"
  | Standards => "testops_standards_jobs"
  | Optimization => "testops_optimization_jobs"
  end.

(** The job kinds: the Testcases and Autotests pages each create jobs of
    [type] "ui" and "api" in one list; the other two pages have one kind. *)
Inductive JobKind : Type :=
| UiTestcases | ApiTestcases | UiAutotests | ApiAutotests
| StandardsCheck | OptimizationRun.

Definition kind_page (k : JobKind) : Page :=
  match k with
  | UiTestcases | ApiTestcases => Testcases
  | UiAutotests | ApiAutotests => Autotests
  | StandardsCheck => Standards
  | OptimizationRun => Optimization
  end.

Definition storage_key (k : JobKind) : string := page_key (kind_page k).

(** A key of the shape [testops_<kind>_jobs] with a non-empty kind part. *)
Definition follows_pattern (key : string) : Prop :=
  exists kind : string, kind <> "" /\ key = "testops_" +:+ kind +:+ "_jobs".

(** [localStorage]: string keys to string values. *)
Abbreviation Storage := (gmap string string).

Definition getItem (key : string) (st : Storage) : option string := st !! key.
Definition setItem (key value : string) (st : Storage) : Storage := <[key := value]> st.

(** What the code writes to the console. *)
Inductive LogEntry : Type :=
| LoadFailed (p : Page) (e : string)   (* console.error in the mount effect *)
| FetchFailed (e : string).            (* console.error("Failed to fetch job:", error) *)

Section Persistence.
(** [JSON.parse] (throws on malformed text) and [JSON.stringify]. *)
Variable JSON_parse : string -> Completion JsVal.
Variable JSON_stringify : JsVal -> string.

(** First mount effect: read the saved list.  [allJobs] is the state
    before the effect ([useState([])]); the result is the state after it. *)
Definition load_saved_jobs (p : Page) (st : Storage) (allJobs : JsVal)
  : Completion (JsVal * list LogEntry) :=
  match getItem (page_key p) st with
  | Some savedJobs =>
      if truthy (JStr savedJobs) then
        try_catch
          (parsed ← JSON_parse savedJobs; Normal (parsed, []))
          (fun e => Normal (allJobs, [LoadFailed p e]))
      else Normal (allJobs, [])
  | None => Normal (allJobs, [])
  end.

Definition hydrate (p : Page) (st : Storage) : Completion (JsVal * list LogEntry) :=
  load_saved_jobs p st (JArr []).

(** Second effect, run whenever [allJobs] changes. *)
Definition save_jobs (p : Page) (allJobs : JsVal) (st : Storage) : Storage :=
  setItem (page_key p) (JSON_stringify allJobs) st.
End Persistence.

(** The updater given to [setAllJobs] by [updateJobStatus]:
    [prev.map(job => job.job_id === jobId ? { ...job, ...updates } : job)]. *)
Definition updateJobStatus (jobId : string) (updates : obj) (prev : JsVal)
  : Completion JsVal :=
  array_map
    (fun job =>
       id ← member job "job_id";
       if is_str id jobId
       then Normal (JObj (spread (own_props job) updates))
       else Normal job)
    prev.

(** The updates computed by each page's completion callback from the live
    view [liveJob] its closure holds. *)
Definition done_updates (p : Page) (liveJob : JsVal) : Completion obj :=
  match p with
  | Testcases =>
      status ← member liveJob "status";
      testcases ← member liveJob "testcases";
      Normal (<["status" := status]>
              (<["progress" := JNum 100]>
              (<["testcases" := if truthy testcases then testcases else JArr []]> ∅)))
  | Autotests =>
      status ← member liveJob "status";
      result ← member liveJob "result";
      Normal (<["status" := status]>
              (<["progress" := JNum 100]>
              (<["result" := if truthy result then result else JArr []]> ∅)))
  | Standards =>
      violationsCount ← getViolationsCount liveJob;
      status ← member liveJob "status";
      Normal (<["status" := status]>
              (<["progress" := JNum 100]>
              (<["violations_count" := violationsCount]> ∅)))
  | Optimization =>
      recommendationsCount ← getRecommendationsCount liveJob;
      status ← member liveJob "status";
      Normal (<["status" := status]>
              (<["progress" := JNum 100]>
              (<["recommendations_count" := recommendationsCount]> ∅)))
  end.

(** A callback as the hook sees it: given the live view captured by the
    closure, it throws or hands a state updater to [setAllJobs]. *)
Definition Callback : Type :=
  option obj -> Completion (option (JsVal -> Completion JsVal)).

(** The third argument of [useJobWatcher] in the item component of page [p]
    for the list entry [job_id]:
    [() => { if (liveJob) { onUpdate({...}) } }]. *)
Definition item_onDone (p : Page) (job_id : string) : Callback := fun liveJob =>
  match liveJob with
  | Some live =>
      updates ← done_updates p (JObj live);
      Normal (Some (updateJobStatus job_id updates))
  | None => Normal None
  end.

(* ===================================================================== *)
(** ** usePolling and useJobWatcher as a step function                    *)
(* ===================================================================== *)

Module Watcher.

(** The model.  A state cell of [useState] holds the value of the last
    [setState]; the closures made by a render hold the values that render
    saw.  A [Render] event runs the hook body and flushes its effects in one
    step; React schedules it at some point after a state change, and the
    properties below are proved for every interleaving of renders with timer
    and network events.  React ignores state updates of an unmounted
    component: those of the item ([setJob], [setError]) once the item is
    unmounted, and those of the page ([setAllJobs]) once the page is. *)

(** How the promise returned by [fetcher(jobId)] settles.  A rejection
    carries [error.message] when the error has one. *)
Inductive Outcome : Type :=
| Resolved (result : obj)
| Rejected (message : option string).

(** The variables a [poll] closure holds: [jobId], and through [onDone]
    the [liveJob] of the render that created it. *)
Record PollClosure : Type := {
  cl_jobId : option string;
  cl_liveJob : option obj;
}.

Record State : Type := {
  mounted : bool;                       (* the component is mounted *)
  page_mounted : bool;                  (* the page that owns [allJobs] is mounted *)
  jobId : option string;                (* argument of the last render *)
  job : option obj;                     (* useState: the live view *)
  error : option string;                (* useState *)
  savedCallback : PollClosure;          (* useRef(callback).current *)
  enabled : bool;                       (* dependency of the polling effect *)
  isActive : bool;                      (* flag of the current effect run *)
  interval : bool;                      (* its setInterval timer is alive *)
  inflight : gmap nat PollClosure;      (* requests awaiting settlement *)
  next_id : nat;                        (* number of requests issued *)
  requests : list (nat * string);       (* log of fetcher(jobId) calls *)
  done_calls : list (nat * option obj); (* log of onDone() calls *)
  allJobs : JsVal;                      (* the page's job list *)
  console : list LogEntry;
}.

(** The events of the event loop that concern one watcher. *)
Inductive Event : Type :=
| Render (jid : option string)     (* the component runs with this jobId; effects are flushed *)
| TimerFires                       (* the 2000 ms interval elapses *)
| Settles (id : nat) (o : Outcome) (* the promise of request [id] settles *)
| Unmount                          (* the component is unmounted, its page stays *)
| PageUnmount.                     (* the route is left: the page and its items go *)

(** [error.message || "Failed to fetch job"] *)
Definition error_text (message : option string) : string :=
  match message with
  | Some m => if bool_decide (m = "") then "Failed to fetch job" else m
  | None => "Failed to fetch job"
  end.

(** [Boolean(jobId)] *)
Definition has_id (jid : option string) : bool :=
  match jid with
  | Some id => negb (bool_decide (id = ""))
  | None => false
  end.

(** [!job || (job.status === "processing" || job.status === "pending")] *)
Definition pollable (job : option obj) : bool :=
  match job with
  | None => true
  | Some j => is_str (prop j "status") "processing" || is_str (prop j "status") "pending"
  end.

(** The third argument of [usePolling] in [useJobWatcher]. *)
Definition enabled_of (jid : option string) (job : option obj) : bool :=
  has_id jid && pollable job.

(** [["completed", "failed"].includes(result.status)] *)
Definition is_done (result : obj) : bool :=
  is_str (prop result "status") "completed" || is_str (prop result "status") "failed".

(** Field updates.  [setJob] and [setError] are ignored once the component
    is unmounted. *)
Definition setJob (v : option obj) (s : State) : State :=
  {| mounted := mounted s; page_mounted := page_mounted s;
     jobId := jobId s;
     job := if mounted s then v else job s;
     error := error s;
     savedCallback := savedCallback s; enabled := enabled s;
     isActive := isActive s; interval := interval s; inflight := inflight s;
     next_id := next_id s; requests := requests s; done_calls := done_calls s;
     allJobs := allJobs s; console := console s |}.

Definition setError (v : option string) (s : State) : State :=
  {| mounted := mounted s; page_mounted := page_mounted s;
     jobId := jobId s; job := job s;
     error := if mounted s then v else error s;
     savedCallback := savedCallback s; enabled := enabled s;
     isActive := isActive s; interval := interval s; inflight := inflight s;
     next_id := next_id s; requests := requests s; done_calls := done_calls s;
     allJobs := allJobs s; console := console s |}.

Definition set_props (jid : option string) (c : PollClosure) (s : State) : State :=
  {| mounted := mounted s; page_mounted := page_mounted s;
     jobId := jid; job := job s; error := error s;
     savedCallback := c; enabled := enabled s;
     isActive := isActive s; interval := interval s; inflight := inflight s;
     next_id := next_id s; requests := requests s; done_calls := done_calls s;
     allJobs := allJobs s; console := console s |}.

Definition set_effect (en act tm : bool) (s : State) : State :=
  {| mounted := mounted s; page_mounted := page_mounted s;
     jobId := jobId s; job := job s; error := error s;
     savedCallback := savedCallback s; enabled := en;
     isActive := act; interval := tm; inflight := inflight s;
     next_id := next_id s; requests := requests s; done_calls := done_calls s;
     allJobs := allJobs s; console := console s |}.

Definition set_mounted (m : bool) (s : State) : State :=
  {| mounted := m; page_mounted := page_mounted s;
     jobId := jobId s; job := job s; error := error s;
     savedCallback := savedCallback s; enabled := enabled s;
     isActive := isActive s; interval := interval s; inflight := inflight s;
     next_id := next_id s; requests := requests s; done_calls := done_calls s;
     allJobs := allJobs s; console := console s |}.

(** [fetcher(jobId)] is called and its promise awaited. *)
Definition start_request (id : string) (c : PollClosure) (s : State) : State :=
  {| mounted := mounted s; page_mounted := page_mounted s;
     jobId := jobId s; job := job s; error := error s;
     savedCallback := savedCallback s; enabled := enabled s;
     isActive := isActive s; interval := interval s;
     inflight := <[next_id s := c]> (inflight s);
     next_id := S (next_id s);
     requests := requests s ++ [(next_id s, id)];
     done_calls := done_calls s;
     allJobs := allJobs s; console := console s |}.

Definition finish_request (id : nat) (s : State) : State :=
  {| mounted := mounted s; page_mounted := page_mounted s;
     jobId := jobId s; job := job s; error := error s;
     savedCallback := savedCallback s; enabled := enabled s;
     isActive := isActive s; interval := interval s;
     inflight := delete id (inflight s);
     next_id := next_id s; requests := requests s; done_calls := done_calls s;
     allJobs := allJobs s; console := console s |}.

Definition log_done (id : nat) (live : option obj) (s : State) : State :=
  {| mounted := mounted s; page_mounted := page_mounted s;
     jobId := jobId s; job := job s; error := error s;
     savedCallback := savedCallback s; enabled := enabled s;
     isActive := isActive s; interval := interval s; inflight := inflight s;
     next_id := next_id s; requests := requests s;
     done_calls := done_calls s ++ [(id, live)];
     allJobs := allJobs s; console := console s |}.

Definition log_console (entry : LogEntry) (s : State) : State :=
  {| mounted := mounted s; page_mounted := page_mounted s;
     jobId := jobId s; job := job s; error := error s;
     savedCallback := savedCallback s; enabled := enabled s;
     isActive := isActive s; interval := interval s; inflight := inflight s;
     next_id := next_id s; requests := requests s; done_calls := done_calls s;
     allJobs := allJobs s; console := console s ++ [entry] |}.

(** [setAllJobs(updater)], the state setter of the page: ignored once the
    page is unmounted; an updater that throws leaves the list as it was. *)
Definition setAllJobs (updater : JsVal -> Completion JsVal) (s : State) : State :=
  {| mounted := mounted s; page_mounted := page_mounted s;
     jobId := jobId s; job := job s; error := error s;
     savedCallback := savedCallback s; enabled := enabled s;
     isActive := isActive s; interval := interval s; inflight := inflight s;
     next_id := next_id s; requests := requests s; done_calls := done_calls s;
     allJobs := if page_mounted s then
                  match updater (allJobs s) with
                  | Normal next => next
                  | Throw _ => allJobs s
                  end
                else allJobs s;
     console := console s |}.

Definition set_page_mounted (m : bool) (s : State) : State :=
  {| mounted := mounted s; page_mounted := m; jobId := jobId s; job := job s;
     error := error s;
     savedCallback := savedCallback s; enabled := enabled s;
     isActive := isActive s; interval := interval s; inflight := inflight s;
     next_id := next_id s; requests := requests s; done_calls := done_calls s;
     allJobs := allJobs s; console := console s |}.

Section Hook.
(** The [onDone] argument, if the caller passes one. *)
Variable onDone : option Callback.

(** [poll] up to its [await]: [if (!jobId) return; ... await fetcher(jobId)].
    The part after the [await] is [poll_resume]. *)
Definition poll (c : PollClosure) (s : State) : State :=
  if has_id (cl_jobId c)
  then start_request (default "" (cl_jobId c)) c s
  else s.

(** [poll] after the [await], for the request [id] started by closure [c]. *)
Definition poll_resume (id : nat) (c : PollClosure) (o : Outcome) (s : State) : State :=
  match o with
  | Resolved result =>
      let s1 := setError None (setJob (Some result) s) in
      if is_done result then
        match onDone with
        | Some callback =>
            let s2 := log_done id (cl_liveJob c) s1 in
            match callback (cl_liveJob c) with
            | Normal (Some updater) => setAllJobs updater s2
            | Normal None => s2
            | Throw e =>
                setError (Some (error_text (Some e))) (log_console (FetchFailed e) s2)
            end
        | None => s1
        end
      else s1
  | Rejected message =>
      setError (Some (error_text message))
               (log_console (FetchFailed (default "" message)) s)
  end.

(** [tick] of [usePolling].  [poll] catches its own errors, so the promise
    awaited here never rejects and the [catch] of [tick] is not reached. *)
Definition tick (s : State) : State :=
  if negb (isActive s) then s else poll (savedCallback s) s.

(** The function returned by the polling effect. *)
Definition cleanup (s : State) : State :=
  if enabled s then set_effect (enabled s) false false s else s.

(** Body of the polling effect: [if (!enabled) return; let isActive = true;
    ... setInterval(tick, interval); tick();]. *)
Definition setup (en : bool) (s : State) : State :=
  if en then tick (set_effect true true true s)
  else set_effect false (isActive s) (interval s) s.

(** [usePolling(poll, 2000, enabled)] on a re-render.  The polling effect
    has dependencies [[interval, enabled]]: it is run again, after the
    previous cleanup, only when [enabled] changed. *)
Definition usePolling (en : bool) (s : State) : State :=
  if Bool.eqb en (enabled s) then s else setup en (cleanup s).

(** First render and its effects. *)
Definition mount (jid : option string) (store : JsVal) : State :=
  let c := {| cl_jobId := jid; cl_liveJob := None |} in
  setup (enabled_of jid None)
    {| mounted := true; page_mounted := true; jobId := jid; job := None;
       error := None;
       savedCallback := c; enabled := false; isActive := false;
       interval := false; inflight := ∅; next_id := 0; requests := [];
       done_calls := []; allJobs := store; console := [] |}.

(** [useJobWatcher(jobId, fetcher, onDone)] on a re-render and the flush of
    its effects: the new [poll] closure is stored in the ref (every caller
    passes a fresh [onDone] arrow, so [poll] is new on every render), then
    the polling effect is reconsidered. *)
Definition useJobWatcher (jid : option string) (s : State) : State :=
  if mounted s then
    let c := {| cl_jobId := jid; cl_liveJob := job s |} in
    usePolling (enabled_of jid (job s)) (set_props jid c s)
  else s.

Definition settle (id : nat) (o : Outcome) (s : State) : State :=
  match inflight s !! id with
  | Some c => poll_resume id c o (finish_request id s)
  | None => s
  end.

Definition unmount (s : State) : State :=
  if mounted s then set_mounted false (cleanup s) else s.

(** The page is unmounted, and the items it shows with it. *)
Definition page_unmount (s : State) : State :=
  set_page_mounted false (unmount s).

Definition step (s : State) (e : Event) : State :=
  match e with
  | Render jid => useJobWatcher jid s
  | TimerFires => if interval s then tick s else s
  | Settles id o => settle id o s
  | Unmount => unmount s
  | PageUnmount => page_unmount s
  end.

Definition run (s : State) (trace : list Event) : State :=
  fold_left step trace s.
End Hook.

End Watcher.

Import Watcher.

(* ===================================================================== *)
(** ** Runs of a watcher                                                  *)
(* ===================================================================== *)

(** States a watcher can be in: some run from its first render. *)
Definition reachable (onDone : option Callback) (s : State) : Prop :=
  exists (jid : option string) (store : JsVal) (trace : list Event),
    s = run onDone (mount jid store) trace.

(** The timer and the liveness flag are on exactly while the component is
    mounted and the last run of the polling effect saw [enabled]. *)
Definition effect_consistent (s : State) : Prop :=
  isActive s = mounted s && enabled s /\ interval s = mounted s && enabled s.

(** The job list after [callback], holding the live view [live], has run
    and its updater, if it queues one, has been applied. *)
Definition store_after (callback : Callback) (live : option obj) (store : JsVal) : JsVal :=
  match callback live with
  | Normal (Some updater) =>
      match updater store with
      | Normal next => next
      | Throw _ => store
      end
  | _ => store
  end.

(** Request ids are issued in order; an id whose callback was called is no
    longer in flight, and is logged once. *)
Definition ids_fresh (s : State) : Prop :=
  (forall id c, inflight s !! id = Some c -> (id < next_id s)%nat)
  /\ (forall id, id ∈ (done_calls s).*1 ->
        (id < next_id s)%nat /\ inflight s !! id = None)
  /\ NoDup (done_calls s).*1.

(** At most one request is in flight, and whenever a render would switch
    polling on for [jid] none is. *)
Definition one_at_a_time (jid : option string) (s : State) : Prop :=
  (size (inflight s) <= 1)%nat
  /\ effect_consistent s
  /\ (interval s = false -> mounted s = true ->
      enabled_of jid (job s) = true -> inflight s = ∅).

(** No request has resolved: there is no live view, no closure holds one,
    and the callback has not run. *)
Definition nothing_fetched (store : JsVal) (s : State) : Prop :=
  job s = None
  /\ cl_liveJob (savedCallback s) = None
  /\ (forall id c, inflight s !! id = Some c -> cl_liveJob c = None)
  /\ allJobs s = store
  /\ done_calls s = [].

(** The settlement [e] makes [poll] reach its [onDone] test with a
    completed or failed result. *)
Definition brings_done_result (s : State) (e : Event) : bool :=
  match e with
  | Settles id (Resolved result) =>
      bool_decide (is_Some (inflight s !! id)) && is_done result
  | _ => false
  end.

(** Number of such settlements along a run from [s]. *)
Fixpoint done_results (onDone : option Callback) (s : State) (trace : list Event) : nat :=
  match trace with
  | [] => 0%nat
  | e :: rest =>
      ((if brings_done_result s e then 1 else 0)
       + done_results onDone (step onDone s e) rest)%nat
  end.

(** A run in which the watched id stays [jid] and the timer only fires
    once the previous request has settled. *)
Fixpoint paced (onDone : option Callback) (jid : option string) (s : State)
    (trace : list Event) : bool :=
  match trace with
  | [] => true
  | e :: rest =>
      match e with
      | Render jid' => bool_decide (jid' = jid)
      | TimerFires => bool_decide (inflight s = ∅)
      | Settles _ _ | Unmount | PageUnmount => true
      end && paced onDone jid (step onDone s e) rest
  end.

(** A run in which no request has resolved yet (rejections are allowed). *)
Definition no_result_yet (trace : list Event) : bool :=
  forallb (fun e => match e with Settles _ (Resolved _) => false | _ => true end) trace.

(* ===================================================================== *)
(** ** Sample values used by the examples                                 *)
(* ===================================================================== *)

(** The arrow function of [updateJobStatus] on an object entry. *)
Definition merge_entry (jobId : string) (updates job : obj) : obj :=
  if is_str (prop job "job_id") jobId then spread job updates else job.

(** A parser that rejects every text; on the empty string it agrees with
    [JSON.parse], which throws a SyntaxError there. *)
Definition reject_all : string -> Completion JsVal := fun _ => Throw "SyntaxError".

(** A parser that accepts only the text of the empty array. *)
Definition parse_empty_array : string -> Completion JsVal := fun text =>
  if bool_decide (text = "[]") then Normal (JArr []) else Throw "SyntaxError".

Definition job_with_status (id status : string) : obj :=
  <["job_id" := JStr id]> (<["status" := JStr status]> ∅).

Definition summary (id status : string) (progress : Z) : obj :=
  <["job_id" := JStr id]>
    (<["status" := JStr status]> (<["progress" := JNum progress]> ∅)).

(** A payload with an empty nested array and two top-level violations. *)
Definition mixed_payload : obj :=
  <["result" := JObj (<["violations" := JArr []]> ∅)]>
    (<["violations" := JArr [JNull; JNull]]> ∅).

(** A payload showing all three shapes at once. *)
Definition full_payload : obj :=
  <["violations_count" := JNum 7]>
    (<["result" := JObj (<["violations" := JArr [JNull]]> ∅)]>
      (<["violations" := JArr [JNull; JNull]]> ∅)).

(** The callback of the Standards page item showing entry "j1". *)
Definition standards_onDone : option Callback := Some (item_onDone Standards "j1").

Definition one_pending_job : JsVal := JArr [JObj (summary "j1" "pending" 10)].

(** A slow first request: the timer fires again before it settles, then
    both requests resolve with a completed job. *)
Definition overlapping_run : list Event :=
  [ TimerFires;
    Settles 0 (Resolved (job_with_status "j1" "completed"));
    Render (Some "j1");
    Settles 1 (Resolved (job_with_status "j1" "completed")) ].

(** A processing result is rendered, the next request starts, and then the
    caller passes a null id while that request is still in flight. *)
Definition disposed_in_flight : list Event :=
  [ Settles 0 (Resolved (job_with_status "j1" "processing"));
    Render (Some "j1");
    TimerFires;
    Render None ].

(** Job "j1" completes and is rendered; then the caller switches to "j2". *)
Definition finished_then_switched : list Event :=
  [ Settles 0 (Resolved (job_with_status "j1" "completed"));
    Render (Some "j1");
    Render (Some "j2");
    TimerFires ].


(* ===================================================================== *)
(** ** More of the pages: list operations, item view, mount effects       *)
(* ===================================================================== *)

(** [arr.filter(f)]; calling [.filter] on anything but an array throws. *)
Fixpoint filter_elems (f : JsVal -> Completion bool) (l : list JsVal)
  : Completion (list JsVal) :=
  match l with
  | [] => Normal []
  | x :: l' =>
      wanted ← f x;
      ys ← filter_elems f l';
      Normal (if (wanted : bool) then x :: ys else ys)
  end.

Definition array_filter (f : JsVal -> Completion bool) (arr : JsVal) : Completion JsVal :=
  match arr with
  | JArr l => ys ← filter_elems f l; Normal (JArr ys)
  | _ => Throw "TypeError"
  end.

(** The elements [...v] spreads into an array literal: those of an array,
    the characters of a string (one per byte here); anything else is not
    iterable. *)
Definition spread_elems (v : JsVal) : Completion (list JsVal) :=
  match v with
  | JArr l => Normal l
  | JStr s => Normal ((fun a => JStr (String a EmptyString)) <$> String.list_ascii_of_string s)
  | _ => Throw "TypeError"
  end.

(** The updater of [removeJob]: [prev.filter(job => job.job_id !== jobId)]. *)
Definition removeJob (jobId : string) (prev : JsVal) : Completion JsVal :=
  array_filter
    (fun job => id ← member job "job_id"; Normal (negb (is_str id jobId)))
    prev.

(** The updater of the [onSuccess] handlers: [prev => [newJob, ...prev]]. *)
Definition prependJob (newJob : obj) (prev : JsVal) : Completion JsVal :=
  rest ← spread_elems prev;
  Normal (JArr (JObj newJob :: rest)).

(** [newJob] of [uiMutation] and [apiMutation] on the Testcases page, from
    the submission response [res]; [now] is [new Date().toISOString()]. *)
Definition testcases_newJob (type title : string) (res : obj) (now : string) : obj :=
  <["job_id" := prop res "job_id"]>
  (<["type" := JStr type]>
  (<["title" := JStr title]>
  (<["status" := JStr "pending"]>
  (<["progress" := JNum 10]>
  (<["created_at" := JStr now]> ∅))))).

Definition ui_newJob : obj -> string -> obj := testcases_newJob "ui" "UI кейсы".
Definition api_newJob : obj -> string -> obj := testcases_newJob "api" "API кейсы".

(** The tabs of the Testcases and Autotests pages. *)
Inductive Tab : Type := UiTab | ApiTab.

Definition tab_name (t : Tab) : string :=
  match t with UiTab => "ui" | ApiTab => "api" end.

(** [filteredJobs] of TestcasesPage:
    [activeTab === "ui" ? job.type === "ui" : job.type === "api"]. *)
Definition filteredJobs (activeTab : Tab) (allJobs : JsVal) : Completion JsVal :=
  array_filter
    (fun job =>
       type ← member job "type";
       Normal (if bool_decide (tab_name activeTab = "ui")
               then is_str type "ui" else is_str type "api"))
    allJobs.

(** [filteredJobs] of AutotestsPage: [job.type === activeTab]. *)
Definition filteredJobs_autotests (activeTab : Tab) (allJobs : JsVal) : Completion JsVal :=
  array_filter
    (fun job => type ← member job "type"; Normal (is_str type (tab_name activeTab)))
    allJobs.

(** The first argument of [useJobWatcher] in the item components:
    [job.status !== "completed" && job.status !== "failed" ? job.job_id : null]. *)
Definition item_jobId (job : obj) : JsVal :=
  if negb (is_str (prop job "status") "completed")
     && negb (is_str (prop job "status") "failed")
  then prop job "job_id" else JNull.

(** A [string | null] argument as the hook model takes it.  The entries'
    [job_id] is a string; other values do not occur. *)
Definition as_jobId (v : JsVal) : option string :=
  match v with JStr s => Some s | _ => None end.

(** [const displayJob = liveJob || job] *)
Definition displayJob (liveJob : option obj) (job : obj) : obj :=
  match liveJob with Some live => live | None => job end.

(** [displayJob.progress || (displayJob.status === "completed" ? 100 :
    displayJob.status === "processing" ? 50 :
    displayJob.status === "pending" ? 10 : 0)] *)
Definition progress (displayJob : obj) : JsVal :=
  if truthy (prop displayJob "progress") then prop displayJob "progress"
  else if is_str (prop displayJob "status") "completed" then JNum 100
  else if is_str (prop displayJob "status") "processing" then JNum 50
  else if is_str (prop displayJob "status") "pending" then JNum 10
  else JNum 0.

(** The checkbox handlers of the forms:
    [prev.includes(c) ? prev.filter((x) => x !== c) : [...prev, c]]. *)
Definition toggle (c : string) (prev : list string) : list string :=
  if bool_decide (c ∈ prev) then filter (fun x => x <> c) prev else prev ++ [c].

(** How the mount of a page ends: the state settles with a job list, or a
    render throws and React takes the page down.  Either way the console and
    the storage are what the effects run until then made of them. *)
Inductive Mounted : Type :=
| Settled (allJobs : JsVal) (log : list LogEntry) (st : Storage)
| Crashed (e : string) (log : list LogEntry) (st : Storage).

Definition storage_of (m : Mounted) : Storage :=
  match m with Settled _ _ st | Crashed _ _ st => st end.

Section PageMount.
Variable JSON_parse : string -> Completion JsVal.
Variable JSON_stringify : JsVal -> string.
(** What React makes of the JSX a page returns for the list it shows, the
    item components included: it is rendered, or something in it throws.
    Beyond the first read of the list the JSX is not modelled. *)
Variable render_list : Page -> JsVal -> Completion unit.

(** The two effects of a page after its first render, in declaration
    order: the first reads the saved text and queues [setAllJobs]; the second
    writes the [allJobs] of that render, which still is [[]].  Result: the
    state after the queued update, the console, the storage. *)
Definition mount_effects (p : Page) (st : Storage)
  : Completion (JsVal * list LogEntry * Storage) :=
  loaded ← load_saved_jobs JSON_parse p st (JArr []);
  Normal (loaded.1, loaded.2, save_jobs JSON_stringify p (JArr []) st).

(** The first effect once more, keeping apart whether it reached
    [setAllJobs(JSON.parse(savedJobs))]: [Some parsed] when it did. *)
Definition queued_jobs (p : Page) (st : Storage) : option JsVal * list LogEntry :=
  match getItem (page_key p) st with
  | Some savedJobs =>
      if truthy (JStr savedJobs) then
        match JSON_parse savedJobs with
        | Normal parsed => (Some parsed, [])
        | Throw e => (None, [LoadFailed p e])
        end
      else (None, [])
  | None => (None, [])
  end.

(** The render of page [p] with the job list [allJobs] and every other
    state cell at its initial value (the tab is "ui").  The Testcases and
    Autotests pages compute [filteredJobs] in the component body and show
    that list.  The other two show [allJobs] itself, and the first thing
    their JSX reads of it is [allJobs.length]. *)
Definition page_render (p : Page) (allJobs : JsVal) : Completion unit :=
  match p with
  | Testcases => shown ← filteredJobs UiTab allJobs; render_list p shown
  | Autotests => shown ← filteredJobs_autotests UiTab allJobs; render_list p shown
  | Standards | Optimization => _ ← member allJobs "length"; render_list p allJobs
  end.

(** Mount of a page up to the point where its state is settled.  The first
    render sees [useState([])]; then the two effects run.  A loaded value is
    a new state, so the page renders again with it, and if that render
    returns the second effect runs again with the loaded value.  A render
    that throws takes the page down: no effect of that render runs. *)
Definition page_mount (p : Page) (st : Storage) : Mounted :=
  match page_render p (JArr []) with
  | Throw e => Crashed e [] st
  | Normal _ =>
      let loaded := queued_jobs p st in
      let st1 := save_jobs JSON_stringify p (JArr []) st in
      match loaded.1 with
      | None => Settled (JArr []) loaded.2 st1
      | Some parsed =>
          match page_render p parsed with
          | Throw e => Crashed e loaded.2 st1
          | Normal _ => Settled parsed loaded.2 (save_jobs JSON_stringify p parsed st1)
          end
      end
  end.
End PageMount.

(** The fields the response schemas keep ([jobResponse] of types/api, and
    its extensions in the standards and optimization fetchers). *)
Definition jobResponse_fields : list string :=
  ["job_id"; "type"; "status"; "message"; "estimated_time"; "progress";
   "created_at"; "updated_at"].

Definition standards_job_fields : list string := jobResponse_fields ++ ["testcases"].
Definition optimization_job_fields : list string := jobResponse_fields ++ ["recommendations"].

(** An object with no other properties than [fields]. *)
Definition only_fields (fields : list string) (job : obj) : Prop :=
  forall k, is_Some (job !! k) -> k ∈ fields.

(** The common body of [getViolationsCount] and [getRecommendationsCount],
    with the two property names as arguments. *)
Definition count_by_shapes (count_field list_field : string) (job : JsVal)
  : Completion JsVal :=
  c ← member job count_field;
  if negb (is_undefined c) then Normal c
  else
    r ← member job "result";
    v ← opt_member r list_field;
    n ← opt_member v "length";
    if truthy n then
      r' ← member job "result";
      v' ← member r' list_field;
      member v' "length"
    else
      w ← member job list_field;
      m ← opt_member w "length";
      if truthy m then
        w' ← member job list_field;
        member w' "length"
      else Normal (JNum 0).

(** The rule table for arbitrary property names. *)
Definition shape_probes (count_field list_field : string) : list Probe :=
  [ (fun job => match prop job count_field with JUndefined => None | c => Some c end);
    (fun job => match prop job "result" with
                | JObj r => length_if_any (prop r list_field)
                | _ => None
                end);
    (fun job => length_if_any (prop job list_field)) ].

(** The entries of a list that [removeJob] keeps. *)
Definition keep_others (jobId : string) (prev : list obj) : list obj :=
  filter (fun job => is_str (prop job "job_id") jobId = false) prev.

(** The entries of a list shown on a tab. *)
Definition on_tab (t : Tab) (jobs : list obj) : list obj :=
  filter (fun job => is_str (prop job "type") (tab_name t) = true) jobs.

(** A run in which every render passes a null or empty id. *)
Definition null_renders (trace : list Event) : bool :=
  forallb (fun e => match e with Render jid => negb (has_id jid) | _ => true end) trace.

(** The requests issued so far are numbered in order and carry non-empty
    ids; every request in flight is among them. *)
Definition requests_logged (s : State) : Prop :=
  (requests s).*1 = seq 0 (next_id s)
  /\ (forall r, r ∈ requests s -> r.2 <> "")
  /\ (forall id c, inflight s !! id = Some c ->
        (id, default "" (cl_jobId c)) ∈ requests s).

(** The property each page's completion callback writes beside [status] and
    [progress]. *)
Definition result_field (p : Page) : string :=
  match p with
  | Testcases => "testcases"
  | Autotests => "result"
  | Standards => "violations_count"
  | Optimization => "recommendations_count"
  end.

(** A serializer that prints every value as the empty array, for examples
    with [parse_empty_array]. *)
Definition print_empty_array : JsVal -> string := fun _ => "[]".

(** A parser that accepts the texts of [null] and of the empty array. *)
Definition parse_null : string -> Completion JsVal := fun text =>
  if bool_decide (text = "null") then Normal JNull
  else if bool_decide (text = "[]") then Normal (JArr [])
  else Throw "SyntaxError".

(** A JSX that shows whatever list it is given. *)
Definition show_all : Page -> JsVal -> Completion unit := fun _ _ => Normal tt.

(** A watcher that was given no usable id so far: nothing requested,
    nothing in flight, timer off. *)
Definition idle_watcher (store : JsVal) (s : State) : Prop :=
  has_id (cl_jobId (savedCallback s)) = false
  /\ enabled s = false /\ interval s = false /\ isActive s = false
  /\ requests s = [] /\ inflight s = ∅
  /\ job s = None /\ error s = None /\ done_calls s = [] /\ allJobs s = store.

(** A watcher at rest on the state [s0]: timer off, nothing in flight, and
    the view, the logs and the list as in [s0]. *)
Definition at_rest (s0 s : State) : Prop :=
  effect_consistent s /\ interval s = false /\ inflight s = ∅
  /\ job s = job s0 /\ requests s = requests s0
  /\ done_calls s = done_calls s0 /\ allJobs s = allJobs s0.

(* ===================================================================== *)
(** * Properties                                                          *)
(* ===================================================================== *)

(** ** JavaScript helpers *)

Lemma is_str_true (v : JsVal) (lit : string) :
  is_str v lit = true <-> v = JStr lit.
Proof.
  destruct v; simpl; try (split; [discriminate | intros [=]]).
  rewrite bool_decide_eq_true. split; [intros -> | intros [=]]; done.
Qed.

Lemma is_str_false (v : JsVal) (lit : string) :
  is_str v lit = false <-> v <> JStr lit.
Proof.
  rewrite <- is_str_true. destruct (is_str v lit); split; congruence.
Qed.

Lemma member_obj (m : obj) (k : string) : member (JObj m) k = Normal (prop m k).
Proof. reflexivity. Qed.

Lemma spread_lookup (a b : obj) (k : string) :
  spread a b !! k = match b !! k with Some v => Some v | None => a !! k end.
Proof.
  unfold spread. rewrite lookup_union.
  destruct (b !! k), (a !! k); reflexivity.
Qed.

Lemma append_length (s t : string) :
  String.length (s +:+ t) = (String.length s + String.length t)%nat.
Proof. induction s as [|c s IH]; simpl; [reflexivity | now rewrite IH]. Qed.

(** ** Result metadata extraction *)

Lemma length_truthy_str (s : string) :
  truthy (JNum (Z.of_nat (String.length s))) = negb (bool_decide (s = "")).
Proof. destruct s; reflexivity. Qed.

(** The guarded read [if (v?.length) return v.length], for any [v]. *)
Lemma guarded_length (v : JsVal) :
  exists n, opt_member v "length" = Normal n /\
    match length_if_any v with
    | Some c => truthy n = true /\ member v "length" = Normal c
    | None => truthy n = false
    end.
Proof.
  destruct v as [| |b|z|s|l|m]; simpl; eauto.
  - exists (JNum (Z.of_nat (String.length s))). split; [reflexivity|].
    rewrite length_truthy_str. destruct s; simpl; auto.
  - exists (JNum (Z.of_nat (length l))). split; [reflexivity|].
    destruct l; simpl; auto.
  - exists (prop m "length"). split; [reflexivity|].
    destruct (truthy (prop m "length")) eqn:E; auto.
Qed.

(** C8. On every job payload, [getViolationsCount] returns (and never
    throws) what the ordered rule table gives: the explicit
    [violations_count] when it is not undefined, else the length of
    [result.violations] when that length is non-zero, else the length of the
    top-level [violations] when non-zero, else zero. *)
Theorem getViolationsCount_precedence (job : obj) :
  getViolationsCount (JObj job) = Normal (violations_count_spec job).
Proof.
  unfold getViolationsCount, violations_count_spec, violations_probes, first_applicable.
  rewrite !member_obj. simpl.
  unfold probe_explicit_count.
  destruct (prop job "violations_count") eqn:Ec; simpl; try reflexivity.
  unfold probe_nested_violations, probe_top_violations.
  assert (Htop :
    (w ← Normal (prop job "violations");
     m ← opt_member w "length";
     if truthy m then w' ← Normal (prop job "violations"); member w' "length"
     else Normal (JNum 0))
    = Normal (match length_if_any (prop job "violations") with
              | Some v => v | None => JNum 0 end)).
  { simpl. destruct (guarded_length (prop job "violations")) as (n & -> & Hn). simpl.
    destruct (length_if_any (prop job "violations")).
    - destruct Hn as [-> ->]. reflexivity.
    - rewrite Hn. reflexivity. }
  simpl in Htop.
  destruct (prop job "result") as [| |b|z|s|l|r] eqn:Er; simpl; try exact Htop.
  destruct (guarded_length (prop r "violations")) as (n & Hn1 & Hn).
  unfold opt_member in *.
  destruct (nullish (prop r "violations")) eqn:En.
  - simpl. destruct (prop r "violations"); try discriminate; simpl; exact Htop.
  - simpl. rewrite Hn1. simpl.
    destruct (length_if_any (prop r "violations")).
    + destruct Hn as [Ht Hm]. rewrite Ht. congruence.
    + rewrite Hn. exact Htop.
Qed.

(** With all three shapes present the explicit count is returned. *)
Example explicit_count_first :
  getViolationsCount (JObj full_payload) = Normal (JNum 7).
Proof. reflexivity. Qed.

(** Without the explicit count the nested array is measured before the
    top-level one. *)
Example nested_before_top :
  getViolationsCount (JObj (delete "violations_count" full_payload)) = Normal (JNum 1).
Proof. vm_compute. reflexivity. Qed.

(** An empty nested array does not apply: the top-level array is measured. *)
Example empty_nested_falls_through :
  getViolationsCount (JObj mixed_payload) = Normal (JNum 2).
Proof. vm_compute. reflexivity. Qed.

Example no_shape_gives_zero :
  getViolationsCount (JObj (job_with_status "j1" "completed")) = Normal (JNum 0).
Proof. vm_compute. reflexivity. Qed.

(** ** The job list: update *)

Lemma map_elems_objects (f : JsVal -> Completion JsVal) (g : obj -> obj)
    (prev : list obj) :
  (forall job, f (JObj job) = Normal (JObj (g job))) ->
  map_elems f (JObj <$> prev) = Normal (JObj <$> (g <$> prev)).
Proof.
  intros Hf. induction prev as [|job prev IH]; [reflexivity|].
  rewrite !fmap_cons. cbn [map_elems]. rewrite Hf, IH. reflexivity.
Qed.

Lemma updateJobStatus_objects (jobId : string) (updates : obj) (prev : list obj) :
  updateJobStatus jobId updates (JArr (JObj <$> prev))
  = Normal (JArr (JObj <$> (merge_entry jobId updates <$> prev))).
Proof.
  unfold updateJobStatus, array_map.
  rewrite (map_elems_objects _ (merge_entry jobId updates)); [reflexivity|].
  intros job. rewrite member_obj. simpl. unfold merge_entry.
  destruct (is_str (prop job "job_id") jobId); reflexivity.
Qed.

Lemma merge_entry_no_match (jobId : string) (updates : obj) (prev : list obj) :
  (forall job, job ∈ prev -> prop job "job_id" <> JStr jobId) ->
  merge_entry jobId updates <$> prev = prev.
Proof.
  intros Hno. induction prev as [|job prev IH]; [reflexivity|].
  rewrite fmap_cons, IH by (intros j Hj; apply Hno; now right).
  unfold merge_entry.
  assert (is_str (prop job "job_id") jobId = false) as ->; [|reflexivity].
  apply is_str_false, Hno. now left.
Qed.

(** C9. On a list of job entries [updateJobStatus] does not throw; the new
    list has the same length; at every position an entry whose [job_id] is
    the given id is replaced by its shallow merge with the updates (update
    properties win, the others are kept) and any other entry stays as it is,
    so order is kept; when no entry has the id the list is returned
    unchanged. *)
Theorem updateJobStatus_merges (jobId : string) (updates : obj) (prev : list obj) :
  exists next : list obj,
    updateJobStatus jobId updates (JArr (JObj <$> prev)) = Normal (JArr (JObj <$> next))
    /\ length next = length prev
    /\ (forall (i : nat) (job : obj),
          prev !! i = Some job -> prop job "job_id" = JStr jobId ->
          exists merged : obj,
            next !! i = Some merged /\
            forall k, merged !! k
                      = match updates !! k with Some v => Some v | None => job !! k end)
    /\ (forall (i : nat) (job : obj),
          prev !! i = Some job -> prop job "job_id" <> JStr jobId ->
          next !! i = Some job)
    /\ ((forall job, job ∈ prev -> prop job "job_id" <> JStr jobId) -> next = prev).
Proof.
  exists (merge_entry jobId updates <$> prev). repeat split.
  - apply updateJobStatus_objects.
  - apply length_fmap.
  - intros i job Hi Hid. exists (spread job updates). split.
    + rewrite list_lookup_fmap, Hi. simpl. unfold merge_entry.
      apply is_str_true in Hid. now rewrite Hid.
    + intros k. apply spread_lookup.
  - intros i job Hi Hid. rewrite list_lookup_fmap, Hi. simpl. unfold merge_entry.
    apply is_str_false in Hid. now rewrite Hid.
  - apply merge_entry_no_match.
Qed.

(** The update of a finished Standards job, on a list of two entries: the
    first entry, with another id, keeps its place and content. *)
Lemma updateJobStatus_merges_witness :
  exists next : list obj,
    updateJobStatus "j2"
      (<["status" := JStr "completed"]> (<["progress" := JNum 100]> ∅))
      (JArr (JObj <$> [summary "j1" "pending" 10; summary "j2" "processing" 50]))
    = Normal (JArr (JObj <$> next))
    /\ next !! 0%nat = Some (summary "j1" "pending" 10).
Proof.
  destruct (updateJobStatus_merges "j2"
              (<["status" := JStr "completed"]> (<["progress" := JNum 100]> ∅))
              [summary "j1" "pending" 10; summary "j2" "processing" 50])
    as (next & Hrun & _ & _ & Hother & _).
  exists next. split; [exact Hrun|].
  apply Hother; [reflexivity|]. vm_compute. discriminate.
Defined.

Example update_finished_job :
  updateJobStatus "j2"
    (<["status" := JStr "completed"]> (<["progress" := JNum 100]> ∅))
    (JArr [JObj (summary "j1" "pending" 10); JObj (summary "j2" "processing" 50)])
  = Normal (JArr [JObj (summary "j1" "pending" 10); JObj (summary "j2" "completed" 100)]).
Proof. reflexivity. Qed.

(** An absent id leaves the list as it is. *)
Example update_absent_id :
  updateJobStatus "gone" (<["progress" := JNum 100]> ∅)
    (JArr [JObj (summary "j1" "pending" 10)])
  = Normal (JArr [JObj (summary "j1" "pending" 10)]).
Proof. vm_compute. reflexivity. Qed.

(** ** The job list: storage keys *)

Lemma page_key_inj (p q : Page) : page_key p = page_key q -> p = q.
Proof. destruct p, q; simpl; intros H; first [reflexivity | discriminate H]. Qed.

Lemma testops_jobs_off_pattern : ~ follows_pattern "testops_jobs".
Proof.
  intros (kind & _ & Hkey).
  apply (f_equal String.length) in Hkey.
  rewrite !append_length in Hkey. simpl in Hkey. lia.
Qed.

Lemma save_other_page (stringify : JsVal -> string) (p q : Page)
    (jobs : JsVal) (st : Storage) :
  p <> q ->
  getItem (page_key q) (save_jobs stringify p jobs st) = getItem (page_key q) st.
Proof.
  intros Hpq. unfold getItem, save_jobs, setItem.
  apply lookup_insert_ne. intros Hk. apply Hpq. now apply page_key_inj.
Qed.

(** C6, as stated, fails: the UI and API test-case kinds are different kinds
    stored under one key, and that key has no kind part. *)
Lemma kinds_share_key :
  UiTestcases <> ApiTestcases
  /\ storage_key UiTestcases = storage_key ApiTestcases
  /\ ~ follows_pattern (storage_key UiTestcases).
Proof.
  split; [discriminate|]. split; [reflexivity|].
  exact testops_jobs_off_pattern.
Qed.

(** C6, amended. Each of the four pages stores its list under its own key,
    distinct from the keys of the other pages; two kinds share a key exactly
    when they belong to the same page (the UI and API variants of test cases,
    and of autotests); the keys of the Autotests, Standards and Optimization
    pages have the shape testops_<kind>_jobs and the key of the Testcases page
    is testops_jobs; saving the list of one page leaves the entry of every
    other page, and what that page hydrates from it, as it was. *)
Theorem page_keys_distinct :
  (forall p q : Page, page_key p = page_key q <-> p = q)
  /\ (forall k1 k2 : JobKind,
        storage_key k1 = storage_key k2 <-> kind_page k1 = kind_page k2)
  /\ follows_pattern (page_key Autotests)
  /\ follows_pattern (page_key Standards)
  /\ follows_pattern (page_key Optimization)
  /\ page_key Testcases = "testops_jobs"
  /\ ~ follows_pattern (page_key Testcases)
  /\ (forall (stringify : JsVal -> string) (p q : Page) (jobs : JsVal) (st : Storage),
        p <> q ->
        getItem (page_key q) (save_jobs stringify p jobs st) = getItem (page_key q) st)
  /\ (forall (parse : string -> Completion JsVal) (stringify : JsVal -> string)
             (p q : Page) (jobs : JsVal) (st : Storage),
        p <> q ->
        hydrate parse q (save_jobs stringify p jobs st) = hydrate parse q st).
Proof.
  split; [|split; [|repeat split]].
  - intros p q. split; [apply page_key_inj | now intros ->].
  - intros k1 k2. unfold storage_key. split; [apply page_key_inj | now intros ->].
  - exists "autotest". split; [discriminate | reflexivity].
  - exists "standards". split; [discriminate | reflexivity].
  - exists "optimization". split; [discriminate | reflexivity].
  - exact testops_jobs_off_pattern.
  - intros stringify p q jobs st Hpq. now apply save_other_page.
  - intros parse stringify p q jobs st Hpq. unfold hydrate, load_saved_jobs.
    now rewrite save_other_page.
Qed.

(** ** The job list: hydration *)

(** C7, as stated, fails on the empty string: it is not parsable, yet
    nothing is logged, because the code tests [if (savedJobs)] first. *)
Lemma empty_blob_not_logged :
  getItem (page_key Standards) (<["testops_standards_jobs" := ""]> ∅) = Some ""
  /\ reject_all "" = Throw "SyntaxError"
  /\ hydrate reject_all Standards (<["testops_standards_jobs" := ""]> ∅)
     = Normal (JArr [], []).
Proof. vm_compute. repeat split. Qed.

(** C7, amended. Hydration never throws.  When the entry is missing or is the
    empty string nothing is parsed or logged and the list is empty; any other
    text that JSON.parse rejects leaves the list empty and is logged; a text
    that JSON.parse accepts gives exactly the parsed value, unlogged. *)
Theorem hydrate_fails_soft (JSON_parse : string -> Completion JsVal)
    (p : Page) (st : Storage) :
  hydrate JSON_parse p st =
  Normal
    match getItem (page_key p) st with
    | None => (JArr [], [])
    | Some savedJobs =>
        if bool_decide (savedJobs = "") then (JArr [], [])
        else match JSON_parse savedJobs with
             | Normal parsed => (parsed, [])
             | Throw e => (JArr [], [LoadFailed p e])
             end
    end.
Proof.
  unfold hydrate, load_saved_jobs.
  destruct (getItem (page_key p) st) as [savedJobs|]; [|reflexivity].
  simpl. destruct (bool_decide (savedJobs = "")); simpl; [reflexivity|].
  destruct (JSON_parse savedJobs); reflexivity.
Qed.

(** Scenario C: malformed text under the Standards key. *)
Example hydrate_corrupt_standards :
  hydrate parse_empty_array Standards (<["testops_standards_jobs" := "{oops"]> ∅)
  = Normal (JArr [], [LoadFailed Standards "SyntaxError"]).
Proof. vm_compute. reflexivity. Qed.

Example hydrate_saved_list :
  hydrate parse_empty_array Testcases (<["testops_jobs" := "[]"]> ∅)
  = Normal (JArr [], []).
Proof. vm_compute. reflexivity. Qed.

(** ** The watcher: tactics *)

(** Evaluate the hook on a state given by its fields. *)
Ltac state_eval :=
  cbv beta iota zeta delta
    [mounted page_mounted jobId job error savedCallback enabled isActive interval
     inflight next_id requests done_calls allJobs console cl_jobId cl_liveJob
     setJob setError set_props set_effect set_mounted start_request
     finish_request log_done log_console setAllJobs set_page_mounted
     poll poll_resume tick cleanup setup usePolling useJobWatcher settle
     unmount page_unmount mount step effect_consistent one_at_a_time nothing_fetched
     negb Bool.eqb] in *.

Ltac open_state s :=
  destruct s as [s_m s_pm s_jid s_j s_er s_sc s_en s_act s_tm s_fl s_nx s_rq s_dc s_aj s_co].

Ltac split_all := repeat match goal with |- _ /\ _ => split end.

Section WatcherFacts.
Variable onDone : option Callback.

#[local] Abbreviation step := (step onDone).
#[local] Abbreviation run := (run onDone).

Lemma run_app (s : State) (t1 t2 : list Event) :
  run s (t1 ++ t2) = run (run s t1) t2.
Proof. apply fold_left_app. Qed.

Lemma run_snoc (s : State) (t : list Event) (e : Event) :
  run s (t ++ [e]) = step (run s t) e.
Proof. now rewrite run_app. Qed.

(** ** The watcher: the polling effect *)

Lemma effect_consistent_mount (jid : option string) (store : JsVal) :
  effect_consistent (mount jid store).
Proof.
  state_eval. destruct (enabled_of jid None); [|now split].
  destruct (has_id jid); now split.
Qed.

Lemma effect_consistent_step (s : State) (e : Event) :
  effect_consistent s -> effect_consistent (step s e).
Proof.
  open_state s. intros Hs. state_eval. destruct Hs as [-> ->].
  destruct e as [jid'| |id o| |].
  - destruct s_m; [|auto]. simpl.
    destruct (enabled_of jid' s_j), s_en; simpl; auto;
      destruct (has_id jid'); auto.
  - destruct s_m, s_en; simpl; auto. destruct (has_id _); auto.
  - destruct (s_fl !! id) as [c|]; [|auto].
    destruct o as [result|message]; [|auto].
    destruct (is_done result); [|auto].
    destruct onDone as [cb|]; [|auto].
    destruct (cb _) as [[upd|]|e]; auto.
  - destruct s_m, s_en; simpl; auto.
  - destruct s_m, s_en; simpl; auto.
Qed.

Lemma effect_consistent_run (s : State) (trace : list Event) :
  effect_consistent s -> effect_consistent (run s trace).
Proof.
  revert s. induction trace as [|e trace IH]; intros s Hs; [exact Hs|].
  simpl. apply IH, effect_consistent_step, Hs.
Qed.

Lemma reachable_consistent (s : State) :
  reachable onDone s -> effect_consistent s.
Proof.
  intros (jid & store & trace & ->).
  apply effect_consistent_run, effect_consistent_mount.
Qed.

Lemma reachable_step (s : State) (e : Event) :
  reachable onDone s -> reachable onDone (step s e).
Proof.
  intros (jid & store & trace & ->).
  exists jid, store, (trace ++ [e]). now rewrite run_snoc.
Qed.

(** ** The watcher: single steps *)

Lemma timer_off (s : State) : interval s = false -> step s TimerFires = s.
Proof. simpl. now intros ->. Qed.

Lemma render_facts (s : State) (jid : option string) :
  effect_consistent s -> mounted s = true ->
  let s' := step s (Render jid) in
  job s' = job s /\ error s' = error s /\ jobId s' = jid
  /\ savedCallback s' = {| cl_jobId := jid; cl_liveJob := job s |}
  /\ enabled s' = enabled_of jid (job s)
  /\ interval s' = enabled_of jid (job s)
  /\ isActive s' = enabled_of jid (job s)
  /\ done_calls s' = done_calls s /\ allJobs s' = allJobs s
  /\ mounted s' = true.
Proof.
  open_state s. intros Hs Hm. state_eval. destruct Hs as [-> ->]. subst s_m. simpl.
  destruct (enabled_of jid s_j), s_en; simpl; split_all; try reflexivity;
    destruct (has_id jid); reflexivity.
Qed.

Lemma render_disabled (s : State) (jid : option string) :
  effect_consistent s -> enabled_of jid (job s) = false ->
  let s' := step s (Render jid) in
  interval s' = false /\ isActive s' = false
  /\ requests s' = requests s /\ inflight s' = inflight s.
Proof.
  open_state s. intros Hs Hen. state_eval. destruct Hs as [-> ->]. rewrite Hen.
  destruct s_m, s_en; simpl; auto.
Qed.

Lemma settle_resolved_job (s : State) (id : nat) (c : PollClosure) (result : obj) :
  mounted s = true -> inflight s !! id = Some c ->
  job (step s (Settles id (Resolved result))) = Some result.
Proof.
  open_state s. intros Hm Hc. state_eval. rewrite Hc. subst s_m.
  destruct (is_done result); [|reflexivity].
  destruct onDone as [cb|]; [|reflexivity].
  destruct (cb _) as [[upd|]|e]; reflexivity.
Qed.

Lemma settle_resolved_error (s : State) (id : nat) (c : PollClosure) (result : obj) :
  mounted s = true -> inflight s !! id = Some c ->
  error (step s (Settles id (Resolved result)))
  = if is_done result
    then match onDone with
         | Some callback =>
             match callback (cl_liveJob c) with
             | Throw e => Some (error_text (Some e))
             | Normal _ => None
             end
         | None => None
         end
    else None.
Proof.
  open_state s. intros Hm Hc. state_eval. rewrite Hc. subst s_m.
  destruct (is_done result); [|reflexivity].
  destruct onDone as [cb|]; [|reflexivity].
  destruct (cb _) as [[upd|]|e]; reflexivity.
Qed.

(** Once the item is unmounted a settlement changes neither its view nor
    its error. *)
Lemma settle_unmounted (s : State) (id : nat) (o : Outcome) :
  mounted s = false ->
  let s' := step s (Settles id o) in
  job s' = job s /\ error s' = error s.
Proof.
  open_state s. intros Hm. state_eval. subst s_m.
  destruct (s_fl !! id) as [c|]; [|auto].
  destruct o as [result|message]; [|auto].
  destruct (is_done result); [|auto].
  destruct onDone as [cb|]; [|auto].
  destruct (cb _) as [[upd|]|e]; auto.
Qed.

(** The items of a page do not outlive it. *)
Lemma page_owns_item_step (s : State) (e : Event) :
  (page_mounted s = false -> mounted s = false) ->
  page_mounted (step s e) = false -> mounted (step s e) = false.
Proof.
  open_state s. state_eval. intros Hs.
  destruct e as [jid'| |id o| |].
  - destruct s_m; [|auto].
    destruct (enabled_of jid' s_j), s_en; simpl; auto; destruct (has_id jid'); auto.
  - destruct s_tm; [|auto]. destruct s_act; [|auto]. destruct (has_id _); auto.
  - destruct (s_fl !! id) as [c|]; [|auto].
    destruct o as [result|message]; [|auto].
    destruct (is_done result); [|auto].
    destruct onDone as [cb|]; [|auto].
    destruct (cb _) as [[upd|]|e]; auto.
  - destruct s_m; [|auto]. destruct s_en; auto.
  - destruct s_m; [|auto]. destruct s_en; auto.
Qed.

Lemma reachable_page_owns_item (s : State) :
  reachable onDone s -> page_mounted s = false -> mounted s = false.
Proof.
  intros (jid & store & trace & ->).
  induction trace as [|e trace IH] using rev_ind.
  - state_eval. destruct (enabled_of jid None); [destruct (has_id jid)|]; discriminate.
  - rewrite run_snoc. now apply page_owns_item_step.
Qed.

Lemma settle_done_calls (s : State) (id : nat) (c : PollClosure) (result : obj) :
  inflight s !! id = Some c ->
  done_calls (step s (Settles id (Resolved result)))
  = done_calls s ++
      (if is_done result
       then match onDone with Some _ => [(id, cl_liveJob c)] | None => [] end
       else []).
Proof.
  open_state s. intros Hc. state_eval. rewrite Hc.
  destruct (is_done result); [|now rewrite app_nil_r].
  destruct onDone as [cb|]; [|now rewrite app_nil_r].
  destruct (cb _) as [[upd|]|e]; reflexivity.
Qed.

Lemma settle_allJobs (s : State) (id : nat) (c : PollClosure) (result : obj) :
  inflight s !! id = Some c ->
  allJobs (step s (Settles id (Resolved result)))
  = if page_mounted s && is_done result
    then match onDone with
         | Some callback => store_after callback (cl_liveJob c) (allJobs s)
         | None => allJobs s
         end
    else allJobs s.
Proof.
  open_state s. intros Hc. state_eval. rewrite Hc. unfold store_after.
  destruct (is_done result); [|now rewrite andb_false_r].
  rewrite andb_true_r.
  destruct onDone as [cb|]; [|now destruct s_pm].
  destruct (cb _) as [[upd|]|e]; now destruct s_pm.
Qed.

Lemma settle_rejected (s : State) (id : nat) (c : PollClosure) (message : option string) :
  mounted s = true -> inflight s !! id = Some c ->
  let s' := step s (Settles id (Rejected message)) in
  job s' = job s /\ error s' = Some (error_text message)
  /\ done_calls s' = done_calls s /\ allJobs s' = allJobs s.
Proof.
  open_state s. intros Hm Hc. state_eval. rewrite Hc. subst s_m. auto.
Qed.

(** A rejection touches neither the view nor the callback nor the list. *)
Lemma settle_rejected_keeps (s : State) (id : nat) (message : option string) :
  let s' := step s (Settles id (Rejected message)) in
  job s' = job s /\ done_calls s' = done_calls s /\ allJobs s' = allJobs s.
Proof.
  open_state s. state_eval. destruct (s_fl !! id) as [c|]; auto.
Qed.

Lemma terminal_not_pollable (result : obj) :
  prop result "status" = JStr "completed" \/ prop result "status" = JStr "failed"
  \/ prop result "status" = JStr "cancelled" ->
  pollable (Some result) = false.
Proof. unfold pollable. intros [-> | [-> | ->]]; reflexivity. Qed.

Lemma not_pollable_disabled (jid : option string) (j : option obj) :
  pollable j = false -> enabled_of jid j = false.
Proof. unfold enabled_of. intros ->. apply andb_false_r. Qed.

(** C1, amended. When a request of a mounted watcher resolves with status
    completed, failed or cancelled, the result becomes the live view, the
    enabled predicate is false for it, and after the next render the timer
    and the liveness flag are off and a timer event issues no request.  The
    callback is called for completed and failed; it is not called for
    cancelled. *)
Theorem terminal_result_stops_polling
    (s : State) (id : nat) (c : PollClosure) (result : obj) :
  reachable onDone s ->
  mounted s = true ->
  inflight s !! id = Some c ->
  prop result "status" = JStr "completed" \/ prop result "status" = JStr "failed"
  \/ prop result "status" = JStr "cancelled" ->
  let s' := step s (Settles id (Resolved result)) in
  job s' = Some result
  /\ (forall jid, enabled_of jid (job s') = false)
  /\ (forall jid,
        let s'' := step s' (Render jid) in
        interval s'' = false /\ isActive s'' = false
        /\ requests (step s'' TimerFires) = requests s')
  /\ (forall callback, onDone = Some callback ->
        prop result "status" <> JStr "cancelled" ->
        done_calls s' = done_calls s ++ [(id, cl_liveJob c)])
  /\ (prop result "status" = JStr "cancelled" -> done_calls s' = done_calls s).
Proof.
  intros Hreach Hm Hc Hst s'.
  assert (Hjob : job s' = Some result) by now apply (settle_resolved_job s id c).
  assert (Hoff : forall jid, enabled_of jid (job s') = false).
  { intros jid. rewrite Hjob. now apply not_pollable_disabled, terminal_not_pollable. }
  split; [exact Hjob|]. split; [exact Hoff|]. split; [|split].
  - intros jid s''.
    assert (Hcons : effect_consistent s')
      by now apply reachable_consistent, reachable_step.
    destruct (render_disabled s' jid Hcons (Hoff jid)) as (Ht & Ha & Hrq & _).
    fold s'' in Ht, Ha, Hrq.
    rewrite (timer_off s'' Ht), Hrq. auto.
  - intros cb HoD Hnc. subst s'. rewrite (settle_done_calls _ _ _ _ Hc), HoD.
    assert (is_done result = true) as ->; [|reflexivity].
    unfold is_done. destruct Hst as [-> | [-> | Hcan]]; [reflexivity..|contradiction].
  - intros Hcan. subst s'. rewrite (settle_done_calls _ _ _ _ Hc).
    assert (is_done result = false) as ->; [|apply app_nil_r].
    unfold is_done. now rewrite Hcan.
Qed.


(** ** The watcher: requests issued and settled *)

(** A step leaves the requests alone, or issues one with the saved
    closure, or settles one. *)
Lemma step_requests (s : State) (e : Event) :
  let s' := step s e in
  (inflight s' = inflight s /\ next_id s' = next_id s /\ done_calls s' = done_calls s)
  \/ (inflight s' = <[next_id s := savedCallback s']> (inflight s)
      /\ next_id s' = S (next_id s) /\ done_calls s' = done_calls s)
  \/ (exists id c o, e = Settles id o /\ inflight s !! id = Some c
                     /\ inflight s' = delete id (inflight s)
                     /\ next_id s' = next_id s
                     /\ (done_calls s' = done_calls s
                         \/ done_calls s' = done_calls s ++ [(id, cl_liveJob c)])).
Proof.
  open_state s. state_eval.
  destruct e as [jid'| |id o| |].
  - destruct s_m; [|now left].
    destruct (enabled_of jid' s_j), s_en; try (now left);
      destruct (has_id jid'); try (now left); right; left; auto.
  - destruct s_tm; [|now left]. destruct s_act; [|now left].
    destruct (has_id _); [right; left; auto | now left].
  - destruct (s_fl !! id) as [c|] eqn:Hc; [|now left].
    right; right. exists id, c, o. split; [reflexivity|]. split; [exact Hc|].
    destruct o as [result|message]; [|auto].
    destruct (is_done result); [|auto].
    destruct onDone as [cb|]; [|auto].
    destruct (cb _) as [[upd|]|e]; auto.
  - destruct s_m; [|now left]. destruct s_en; now left.
  - destruct s_m; [|now left]. destruct s_en; now left.
Qed.

Lemma ids_fresh_mount (jid : option string) (store : JsVal) :
  ids_fresh (mount jid store).
Proof.
  unfold ids_fresh. state_eval.
  destruct (enabled_of jid None); [destruct (has_id jid)|];
    (split; [|split; [|apply NoDup_nil_2]]);
    try (intros id Hin; now apply elem_of_nil in Hin);
    intros id c Hc; try (now rewrite lookup_empty in Hc).
  apply lookup_insert_Some in Hc as [[<- _] | [_ Hc]]; [lia|].
  now rewrite lookup_empty in Hc.
Qed.

Lemma ids_fresh_step (s : State) (e : Event) :
  ids_fresh s -> ids_fresh (step s e).
Proof.
  intros (Hfl & Hdc & Hnd).
  destruct (step_requests s e)
    as [(Hi & Hn & Hd) | [(Hi & Hn & Hd) | (id & c & o & _ & Hc & Hi & Hn & Hd)]];
    unfold ids_fresh; rewrite Hi, Hn.
  - rewrite Hd. auto.
  - rewrite Hd. split; [|split; [|exact Hnd]].
    + intros id c' Hc'. apply lookup_insert_Some in Hc' as [[<- _] | [_ Hc']]; [lia|].
      apply Hfl in Hc'. lia.
    + intros id Hin. destruct (Hdc id Hin) as [Hlt Hnone]. split; [lia|].
      rewrite lookup_insert_ne by lia. exact Hnone.
  - assert (Hkeep : forall id', id' ∈ (done_calls s).*1 ->
              (id' < next_id s)%nat /\ delete id (inflight s) !! id' = None).
    { intros id' Hin. destruct (Hdc id' Hin) as [Hlt Hnone]. split; [exact Hlt|].
      apply lookup_delete_None. now right. }
    assert (Hshrink : forall id' c', delete id (inflight s) !! id' = Some c' ->
              (id' < next_id s)%nat).
    { intros id' c' Hc'. apply lookup_delete_Some in Hc' as [_ Hc']. now apply Hfl in Hc'. }
    destruct Hd as [-> | ->]; [auto|].
    rewrite fmap_app. simpl. split; [exact Hshrink|]. split.
    + intros id' Hin. apply elem_of_app in Hin as [Hin | Hin]; [now apply Hkeep|].
      apply list_elem_of_singleton in Hin as ->. split.
      * now apply Hfl in Hc.
      * apply lookup_delete_eq.
    + apply NoDup_app. split; [exact Hnd|]. split; [|apply NoDup_singleton].
      intros id' Hin Hin'. apply list_elem_of_singleton in Hin' as ->.
      destruct (Hdc id Hin) as [_ Hnone]. congruence.
Qed.

Lemma ids_fresh_run (s : State) (trace : list Event) :
  ids_fresh s -> ids_fresh (run s trace).
Proof.
  revert s. induction trace as [|e trace IH]; intros s Hs; [exact Hs|].
  simpl. apply IH, ids_fresh_step, Hs.
Qed.

(** One more call per settlement that brings a completed or failed
    result, when a callback was passed. *)
Lemma done_calls_step (s : State) (e : Event) :
  length (done_calls (step s e))
  = (length (done_calls s)
     + if brings_done_result s e
       then match onDone with Some _ => 1 | None => 0 end
       else 0)%nat.
Proof.
  destruct e as [jid| |id o| |];
    try (destruct (step_requests s (Render jid)) as [(_ & _ & ->) | [(_ & _ & ->) | H]]);
    try (destruct (step_requests s TimerFires) as [(_ & _ & ->) | [(_ & _ & ->) | H]]);
    try (destruct (step_requests s Unmount) as [(_ & _ & ->) | [(_ & _ & ->) | H]]);
    try (destruct (step_requests s PageUnmount) as [(_ & _ & ->) | [(_ & _ & ->) | H]]);
    try (simpl; lia);
    try (destruct H as (? & ? & ? & [=] & _)).
  unfold brings_done_result.
  destruct (inflight s !! id) as [c|] eqn:Hc.
  - destruct o as [result|message].
    + rewrite (settle_done_calls s id c result Hc).
      rewrite bool_decide_eq_true_2 by eauto. simpl.
      rewrite length_app.
      destruct (is_done result); [destruct onDone|]; simpl; lia.
    + open_state s. state_eval. rewrite Hc. simpl. lia.
  - open_state s. state_eval. rewrite Hc.
    destruct o; simpl; try rewrite bool_decide_eq_false_2 by (intros [? [=]]);
      simpl; lia.
Qed.

Lemma done_calls_run (s : State) (trace : list Event) :
  length (done_calls (run s trace))
  = (length (done_calls s)
     + match onDone with Some _ => done_results onDone s trace | None => 0 end)%nat.
Proof.
  revert s. induction trace as [|e trace IH]; intros s; simpl.
  - destruct onDone; lia.
  - rewrite IH, done_calls_step.
    destruct onDone; [|destruct (brings_done_result s e); lia]. lia.
Qed.


(** ** The watcher: requests in flight *)

Lemma size_insert_empty (k : nat) (c : PollClosure) :
  size (<[k := c]> (∅ : gmap nat PollClosure)) = 1%nat.
Proof. rewrite map_size_insert_None by apply lookup_empty. now rewrite map_size_empty. Qed.

Lemma delete_last (fl : gmap nat PollClosure) (id : nat) (c : PollClosure) :
  (size fl <= 1)%nat -> fl !! id = Some c -> delete id fl = ∅.
Proof.
  intros Hsz Hc. apply map_size_empty_iff.
  rewrite map_size_delete, Hc. simpl. lia.
Qed.

Lemma one_at_a_time_mount (jid : option string) (store : JsVal) :
  one_at_a_time jid (mount jid store).
Proof.
  state_eval.
  destruct (enabled_of jid None) eqn:Hen; [destruct (has_id jid)|];
    split_all; try reflexivity; try discriminate;
    rewrite ?size_insert_empty, ?map_size_empty; lia.
Qed.

Lemma one_at_a_time_step (jid : option string) (s : State) (e : Event) :
  one_at_a_time jid s ->
  match e with
  | Render jid' => jid' = jid
  | TimerFires => inflight s = ∅
  | Settles _ _ | Unmount | PageUnmount => True
  end ->
  one_at_a_time jid (step s e).
Proof.
  open_state s. intros Hs He. state_eval.
  destruct Hs as (Hsz & [-> ->] & Hidle).
  destruct e as [jid'| |id o| |].
  - subst jid'. destruct s_m; [|cbn [andb] in *; auto].
    destruct (enabled_of jid s_j) eqn:Hen, s_en; cbn [andb] in *.
    + split_all; auto.
    + rewrite (Hidle eq_refl eq_refl eq_refl).
      destruct (has_id jid); state_eval; split_all; try reflexivity; try discriminate;
        rewrite ?size_insert_empty, ?map_size_empty; lia.
    + split_all; try reflexivity; [exact Hsz|]. rewrite Hen. discriminate.
    + split_all; try reflexivity; [exact Hsz|]. rewrite Hen. discriminate.
  - subst s_fl. destruct s_m, s_en; cbn [andb] in *; auto.
    destruct (has_id _); state_eval; split_all; try reflexivity; try discriminate; auto.
    rewrite size_insert_empty. lia.
  - destruct (s_fl !! id) as [c|] eqn:Hc; [|auto].
    pose proof (delete_last s_fl id c Hsz Hc) as Hlast.
    destruct o as [result|message];
      [destruct (is_done result);
       [destruct onDone as [cb|]; [destruct (cb _) as [[upd|]|err]|]|]|];
      state_eval; rewrite Hlast; split_all; try reflexivity;
      rewrite ?map_size_empty; lia.
  - destruct s_m, s_en; cbn [andb] in *; split_all; try reflexivity; try discriminate; auto.
  - destruct s_m, s_en; cbn [andb] in *; split_all; try reflexivity; try discriminate; auto.
Qed.

Lemma one_at_a_time_run (jid : option string) (s : State) (trace : list Event) :
  one_at_a_time jid s -> paced onDone jid s trace = true ->
  one_at_a_time jid (run s trace).
Proof.
  revert s. induction trace as [|e trace IH]; intros s Hs Hp; [exact Hs|].
  simpl in Hp. apply andb_true_iff in Hp as [He Hp].
  simpl. apply IH; [|exact Hp]. apply one_at_a_time_step; [exact Hs|].
  destruct e; try exact I; now apply bool_decide_eq_true in He.
Qed.

(** ** The watcher: before the first result *)

Lemma nothing_fetched_mount (jid : option string) (store : JsVal) :
  nothing_fetched store (mount jid store).
Proof.
  state_eval.
  destruct (enabled_of jid None); [destruct (has_id jid)|];
    split_all; try reflexivity; intros id c Hc;
    try (now rewrite lookup_empty in Hc).
  apply lookup_insert_Some in Hc as [[_ <-] | [_ Hc]]; [reflexivity|].
  now rewrite lookup_empty in Hc.
Qed.

Lemma nothing_fetched_step (store : JsVal) (s : State) (e : Event) :
  nothing_fetched store s ->
  match e with Settles _ (Resolved _) => False | _ => True end ->
  nothing_fetched store (step s e).
Proof.
  open_state s. intros Hs He. state_eval.
  destruct Hs as (-> & Hsc & Hfl & -> & ->).
  assert (Hins : forall k c' id c,
            cl_liveJob c' = None -> <[k := c']> s_fl !! id = Some c ->
            cl_liveJob c = None).
  { intros k c' id c Hc' Hc.
    apply lookup_insert_Some in Hc as [[_ <-] | [_ Hc]]; [exact Hc'|]. now apply Hfl in Hc. }
  destruct e as [jid'| |id o| |].
  - destruct s_m; [|split_all; auto].
    destruct (enabled_of jid' None), s_en; try (split_all; now auto);
      destruct (has_id jid'); split_all; auto;
      intros id c; now apply Hins.
  - destruct s_tm; [|split_all; auto]. destruct s_act; [|split_all; auto].
    destruct (has_id _); split_all; auto.
    intros id c; now apply Hins.
  - destruct o as [result|message]; [contradiction|].
    destruct (s_fl !! id) as [c0|] eqn:Hc0; [|split_all; auto].
    split_all; auto.
    intros id' c Hc. apply lookup_delete_Some in Hc as [_ Hc]. now apply Hfl in Hc.
  - destruct s_m; [|split_all; auto]. destruct s_en; split_all; auto.
  - destruct s_m; [|split_all; auto]. destruct s_en; split_all; auto.
Qed.

Lemma nothing_fetched_run (store : JsVal) (s : State) (trace : list Event) :
  nothing_fetched store s -> no_result_yet trace = true ->
  nothing_fetched store (run s trace).
Proof.
  revert s. induction trace as [|e trace IH]; intros s Hs Hn; [exact Hs|].
  simpl in Hn. apply andb_true_iff in Hn as [He Hn].
  simpl. apply IH; [|exact Hn]. apply nothing_fetched_step; [exact Hs|].
  destruct e as [| |id [|]| |]; try exact I. discriminate He.
Qed.

(** A render that enables polling hands its closure to the next tick. *)
Lemma tick_uses_render_view (s : State) (jid : option string) :
  effect_consistent s -> mounted s = true ->
  enabled_of jid (job s) = true ->
  let s1 := step s (Render jid) in
  let s2 := step s1 TimerFires in
  inflight s2 !! next_id s1 = Some {| cl_jobId := jid; cl_liveJob := job s |}.
Proof.
  open_state s. intros Hs Hm Hen. state_eval. destruct Hs as [-> ->]. subst s_m.
  rewrite Hen. apply andb_true_iff in Hen as [Hid _].
  destruct s_en; cbn [andb]; rewrite ?Hid; apply lookup_insert_eq.
Qed.


(** ** The watcher: the claims about runs *)

(** C2, amended. The callback is called once for every settlement that
    brings a completed or failed result, and never twice for one request:
    the number of calls is the number of such settlements, whatever their
    number (none when no callback was passed). *)
Theorem callback_once_per_done_result
    (jid : option string) (store : JsVal) (trace : list Event) :
  let s := run (mount jid store) trace in
  length (done_calls s)
  = match onDone with
    | Some _ => done_results onDone (mount jid store) trace
    | None => 0%nat
    end
  /\ NoDup (done_calls s).*1.
Proof.
  split.
  - rewrite done_calls_run.
    destruct (nothing_fetched_mount jid store) as (_ & _ & _ & _ & ->).
    reflexivity.
  - apply (ids_fresh_run _ trace (ids_fresh_mount jid store)).
Qed.

(** C3, amended. While the watched id stays the same and every timer
    event comes after the previous request has settled, at most one request
    is in flight. *)
Theorem sequential_when_paced
    (jid : option string) (store : JsVal) (trace : list Event) :
  paced onDone jid (mount jid store) trace = true ->
  (size (inflight (run (mount jid store) trace)) <= 1)%nat.
Proof.
  intros Hp.
  now destruct (one_at_a_time_run jid _ trace (one_at_a_time_mount jid store) Hp).
Qed.

(** C4, amended. Once the timer of a watcher has been cleared (it was
    disabled, its id was set to null, or it was unmounted) the liveness
    flag is off and a timer event starts nothing; but a request that was in
    flight then still runs the rest of [poll] when it settles.  While the
    item is mounted a result replaces the live view and clears the error
    (a callback that throws sets it again) and a rejection sets the error;
    once the item is unmounted the view and the error stay as they were.
    Mounted or not, the callback is called for a completed or failed result.
    The list is updated by it while the page that owns the list is mounted,
    and stays as it was once the page is gone; an item never outlives its
    page. *)
Theorem settlement_after_disposal (s : State) (id : nat) (c : PollClosure) :
  reachable onDone s ->
  interval s = false ->
  inflight s !! id = Some c ->
  (isActive s = false /\ step s TimerFires = s)
  /\ (forall result,
        let s' := step s (Settles id (Resolved result)) in
        (mounted s = true ->
           job s' = Some result
           /\ error s'
              = (if is_done result
                 then match onDone with
                      | Some callback =>
                          match callback (cl_liveJob c) with
                          | Throw e => Some (error_text (Some e))
                          | Normal _ => None
                          end
                      | None => None
                      end
                 else None))
        /\ (mounted s = false -> job s' = job s /\ error s' = error s)
        /\ done_calls s'
           = done_calls s ++
               (if is_done result
                then match onDone with Some _ => [(id, cl_liveJob c)] | None => [] end
                else [])
        /\ (page_mounted s = true ->
            allJobs s'
            = (if is_done result
               then match onDone with
                    | Some callback => store_after callback (cl_liveJob c) (allJobs s)
                    | None => allJobs s
                    end
               else allJobs s))
        /\ (page_mounted s = false -> allJobs s' = allJobs s))
  /\ (forall message,
        let s' := step s (Settles id (Rejected message)) in
        (mounted s = true -> error s' = Some (error_text message))
        /\ (mounted s = false -> error s' = error s)
        /\ job s' = job s /\ done_calls s' = done_calls s /\ allJobs s' = allJobs s)
  /\ (page_mounted s = false -> mounted s = false).
Proof.
  intros Hreach Htm Hc. split_all.
  - destruct (reachable_consistent s Hreach) as [Ha Ht]. congruence.
  - now apply timer_off.
  - intros result s'. split_all.
    + intros Hm. split.
      * now apply (settle_resolved_job s id c).
      * now apply settle_resolved_error.
    + intros Hm. now apply settle_unmounted.
    + now apply settle_done_calls.
    + intros Hp. subst s'. now rewrite (settle_allJobs s id c result Hc), Hp.
    + intros Hp. subst s'. now rewrite (settle_allJobs s id c result Hc), Hp.
  - intros message s'. split_all.
    + intros Hm. exact (proj1 (proj2 (settle_rejected s id c message Hm Hc))).
    + intros Hm. exact (proj2 (settle_unmounted s id (Rejected message) Hm)).
    + apply (settle_rejected_keeps s id message).
    + apply (settle_rejected_keeps s id message).
    + apply (settle_rejected_keeps s id message).
  - now apply reachable_page_owns_item.
Qed.

(** C5, amended. A first mount starts with a null view and a null error.
    A later render with another id keeps the view and the error as they
    are; the timer is then on exactly when the new id is non-empty and the
    kept view is null, pending or processing, so after a view with any other
    status no request is issued for the new id.  With a null id the timer is
    off and no request is issued. *)
Theorem switching_keeps_view (s : State) (jid' : option string) :
  reachable onDone s ->
  mounted s = true ->
  let s' := step s (Render jid') in
  job s' = job s /\ error s' = error s
  /\ interval s' = enabled_of jid' (job s)
  /\ (pollable (job s) = false ->
      requests s' = requests s /\ step s' TimerFires = s')
  /\ (jid' = None ->
      requests s' = requests s /\ step s' TimerFires = s')
  /\ (forall jid store,
        job (mount jid store) = None /\ error (mount jid store) = None).
Proof.
  intros Hreach Hm s'.
  pose proof (reachable_consistent s Hreach) as Hcons.
  destruct (render_facts s jid' Hcons Hm) as (Hj & He & _ & _ & _ & Ht & _).
  fold s' in Hj, He, Ht.
  assert (Hoff : enabled_of jid' (job s) = false ->
                 requests s' = requests s /\ step s' TimerFires = s').
  { intros Hen. destruct (render_disabled s jid' Hcons Hen) as (Ht' & _ & Hrq & _).
    fold s' in Ht', Hrq. split; [exact Hrq | now apply timer_off]. }
  split_all; auto.
  - intros Hnp. now apply Hoff, not_pollable_disabled.
  - intros ->. now apply Hoff.
  - intros jid store. state_eval.
    destruct (enabled_of jid None); [destruct (has_id jid)|]; split; reflexivity.
Qed.

End WatcherFacts.

(** ** The watcher: runs that refute the claims as stated *)

(** C1, as stated, fails for cancelled: the request is in flight, its result
    has status cancelled, polling is disabled, and the callback is not called. *)
Lemma cancelled_result_no_callback :
  let s := mount (Some "j1") one_pending_job in
  let s' := step standards_onDone s
              (Settles 0 (Resolved (job_with_status "j1" "cancelled"))) in
  inflight s !! 0%nat = Some {| cl_jobId := Some "j1"; cl_liveJob := None |}
  /\ prop (job_with_status "j1" "cancelled") "status" = JStr "cancelled"
  /\ enabled_of (jobId s') (job s') = false
  /\ done_calls s' = [].
Proof. cbv zeta. split_all; reflexivity. Qed.

(** C2, as stated, fails: two overlapping requests for "j1" both resolve
    with a completed job and the callback is called for each. *)
Lemma overlapping_results_call_twice :
  let s := run standards_onDone (mount (Some "j1") one_pending_job) overlapping_run in
  requests s = [(0%nat, "j1"); (1%nat, "j1")]
  /\ done_calls s = [(0%nat, None); (1%nat, None)].
Proof. cbv zeta. split; reflexivity. Qed.

(** C3, as stated, fails: the timer fires while the first request is still
    pending and a second request for the same id is issued. *)
Lemma slow_fetch_overlaps :
  let s := step standards_onDone (mount (Some "j1") one_pending_job) TimerFires in
  size (inflight s) = 2%nat
  /\ requests s = [(0%nat, "j1"); (1%nat, "j1")].
Proof. cbv zeta. split; reflexivity. Qed.

(** C4, as stated, fails: the id was set to null while request 1 was in
    flight; when it resolves the live view changes, the callback is called
    and the job list is updated. *)
Lemma disposed_watcher_still_updated :
  let s := run standards_onDone (mount (Some "j1") one_pending_job) disposed_in_flight in
  let s' := step standards_onDone s
              (Settles 1 (Resolved (job_with_status "j1" "completed"))) in
  jobId s = None /\ isActive s = false /\ interval s = false
  /\ job s = Some (job_with_status "j1" "processing")
  /\ job s' = Some (job_with_status "j1" "completed")
  /\ done_calls s = []
  /\ done_calls s' = [(1%nat, Some (job_with_status "j1" "processing"))]
  /\ allJobs s = one_pending_job
  /\ allJobs s'
     = JArr [JObj (<["violations_count" := JNum 0]> (summary "j1" "processing" 100))].
Proof. cbv zeta. split_all; reflexivity. Qed.

(** C5, as stated, fails: after "j1" completed, switching to "j2" keeps the
    view of "j1", starts no request for "j2", and a null id keeps the view. *)
Lemma switched_id_keeps_old_view :
  let s := run standards_onDone (mount (Some "j1") one_pending_job)
             finished_then_switched in
  jobId s = Some "j2"
  /\ job s = Some (job_with_status "j1" "completed")
  /\ interval s = false
  /\ requests s = [(0%nat, "j1")]
  /\ job (step standards_onDone s (Render None))
     = Some (job_with_status "j1" "completed").
Proof. cbv zeta. split_all; reflexivity. Qed.

(** ** The watcher: the theorems at concrete runs *)

Lemma terminal_result_stops_polling_witness :
  let s := mount (Some "j1") one_pending_job in
  let s' := step standards_onDone s
              (Settles 0 (Resolved (job_with_status "j1" "failed"))) in
  job s' = Some (job_with_status "j1" "failed")
  /\ done_calls s' = done_calls s ++ [(0%nat, None)].
Proof.
  intros s s'.
  assert (Hreach : reachable standards_onDone s) by (exists (Some "j1"), one_pending_job, []; reflexivity).
  assert (Hm : mounted s = true) by reflexivity.
  assert (Hc : inflight s !! 0%nat = Some {| cl_jobId := Some "j1"; cl_liveJob := None |})
    by (vm_compute; reflexivity).
  assert (Hst : prop (job_with_status "j1" "failed") "status" = JStr "completed"
                \/ prop (job_with_status "j1" "failed") "status" = JStr "failed"
                \/ prop (job_with_status "j1" "failed") "status" = JStr "cancelled")
    by (right; left; vm_compute; reflexivity).
  destruct (terminal_result_stops_polling standards_onDone s 0 _ _ Hreach Hm Hc Hst)
    as (Hjob & _ & _ & Hcall & _).
  split; [exact Hjob|].
  apply (Hcall _ eq_refl). vm_compute. discriminate.
Defined.

(** A run in which every request settles before the timer fires again. *)
Lemma sequential_when_paced_witness :
  (size (inflight (run standards_onDone (mount (Some "j1") one_pending_job)
     [ Settles 0 (Resolved (job_with_status "j1" "processing"));
       Render (Some "j1");
       TimerFires;
       Settles 1 (Rejected (Some "Network Error"));
       TimerFires ])) <= 1)%nat.
Proof.
  apply (sequential_when_paced standards_onDone). vm_compute. reflexivity.
Defined.

Lemma settlement_after_disposal_witness :
  let s := run standards_onDone (mount (Some "j1") one_pending_job) disposed_in_flight in
  let s' := step standards_onDone s
              (Settles 1 (Resolved (job_with_status "j1" "completed"))) in
  job s' = Some (job_with_status "j1" "completed")
  /\ done_calls s' = [(1%nat, Some (job_with_status "j1" "processing"))].
Proof.
  intros s s'.
  assert (Hreach : reachable standards_onDone s)
    by (exists (Some "j1"), one_pending_job, disposed_in_flight; reflexivity).
  assert (Htm : interval s = false) by (vm_compute; reflexivity).
  assert (Hc : inflight s !! 1%nat
               = Some {| cl_jobId := Some "j1";
                         cl_liveJob := Some (job_with_status "j1" "processing") |})
    by (vm_compute; reflexivity).
  destruct (settlement_after_disposal standards_onDone s 1 _ Hreach Htm Hc)
    as (_ & Hres & _).
  destruct (Hres (job_with_status "j1" "completed")) as (Hjob & _ & Hcalls & _).
  split; [apply Hjob; vm_compute; reflexivity | exact Hcalls].
Defined.

Lemma switching_keeps_view_witness :
  let s := run standards_onDone (mount (Some "j1") one_pending_job)
             [ Settles 0 (Resolved (job_with_status "j1" "completed"));
               Render (Some "j1") ] in
  job (step standards_onDone s (Render (Some "j2"))) = job s
  /\ requests (step standards_onDone s (Render (Some "j2"))) = requests s.
Proof.
  intros s.
  assert (Hreach : reachable standards_onDone s)
    by (eexists (Some "j1"), one_pending_job, _; reflexivity).
  assert (Hm : mounted s = true) by (vm_compute; reflexivity).
  destruct (switching_keeps_view standards_onDone s (Some "j2") Hreach Hm)
    as (Hjob & _ & _ & Hoff & _).
  split; [exact Hjob|].
  apply Hoff. vm_compute. reflexivity.
Defined.

(** Scenario A on the Standards page: the job is seen processing, then
    completed.  The callback writes the processing view into the list. *)
Example completed_job_saved_as_processing :
  allJobs (run standards_onDone (mount (Some "j1") one_pending_job)
    [ Settles 0 (Resolved (job_with_status "j1" "processing"));
      Render (Some "j1");
      TimerFires;
      Settles 1 (Resolved (job_with_status "j1" "completed")) ])
  = JArr [JObj (<["violations_count" := JNum 0]> (summary "j1" "processing" 100))].
Proof. vm_compute. reflexivity. Qed.

(** The item is removed from the list while request 1 is in flight and the
    page stays: when the completed job arrives the view of the item is left
    alone, the callback is called and the list is updated. *)
Example removed_item_still_updates_list :
  let s := run standards_onDone (mount (Some "j1") one_pending_job)
    [ Settles 0 (Resolved (job_with_status "j1" "processing"));
      Render (Some "j1");
      TimerFires;
      Unmount ] in
  let s' := step standards_onDone s
              (Settles 1 (Resolved (job_with_status "j1" "completed"))) in
  mounted s = false /\ page_mounted s = true
  /\ job s' = Some (job_with_status "j1" "processing")
  /\ done_calls s' = [(1%nat, Some (job_with_status "j1" "processing"))]
  /\ allJobs s'
     = JArr [JObj (<["violations_count" := JNum 0]> (summary "j1" "processing" 100))].
Proof. cbv zeta. split_all; reflexivity. Qed.

(** The route is left while request 1 is in flight: when the completed job
    arrives the callback is still called, but neither the view nor the list
    changes. *)
Example page_gone_list_stays :
  let s := run standards_onDone (mount (Some "j1") one_pending_job)
    [ Settles 0 (Resolved (job_with_status "j1" "processing"));
      Render (Some "j1");
      TimerFires;
      PageUnmount ] in
  let s' := step standards_onDone s
              (Settles 1 (Resolved (job_with_status "j1" "completed"))) in
  mounted s = false /\ page_mounted s = false
  /\ job s' = Some (job_with_status "j1" "processing")
  /\ done_calls s' = [(1%nat, Some (job_with_status "j1" "processing"))]
  /\ allJobs s' = one_pending_job.
Proof. cbv zeta. split_all; reflexivity. Qed.

(** Scenario D: three rejected requests, then a failed job. *)
Example three_failures_then_failed :
  let s := run standards_onDone (mount (Some "j3") one_pending_job)
    [ Settles 0 (Rejected (Some "Network Error")); TimerFires;
      Settles 1 (Rejected (Some "Network Error")); TimerFires;
      Settles 2 (Rejected (Some "Network Error")); TimerFires;
      Settles 3 (Resolved (job_with_status "j3" "failed"));
      Render (Some "j3"); TimerFires ] in
  error s = None /\ length (done_calls s) = 1%nat /\ length (requests s) = 4%nat.
Proof. cbv zeta. split_all; reflexivity. Qed.

(* ===================================================================== *)
(** * Further properties of the pages                                     *)
(* ===================================================================== *)

(** ** List operations on entry objects *)

Lemma bind_normal {A B : Type} (a : A) (k : A -> Completion B) :
  (Normal a ≫= k) = k a.
Proof. reflexivity. Qed.

Lemma filter_elems_objects (f : JsVal -> Completion bool) (P : obj -> Prop)
    `{!forall job, Decision (P job)} (prev : list obj) :
  (forall job, f (JObj job) = Normal (bool_decide (P job))) ->
  filter_elems f (JObj <$> prev) = Normal (JObj <$> filter P prev).
Proof.
  intros Hf. induction prev as [|job prev IH]; [reflexivity|].
  rewrite fmap_cons. cbn [filter_elems]. rewrite Hf, IH, filter_cons.
  destruct (decide (P job)) as [HP|HP].
  - now rewrite bool_decide_eq_true_2.
  - now rewrite bool_decide_eq_false_2.
Qed.

Lemma removeJob_objects (jobId : string) (prev : list obj) :
  removeJob jobId (JArr (JObj <$> prev)) = Normal (JArr (JObj <$> keep_others jobId prev)).
Proof.
  unfold removeJob, array_filter, keep_others.
  rewrite (filter_elems_objects _
             (fun job => is_str (prop job "job_id") jobId = false)); [reflexivity|].
  intros job. rewrite member_obj. cbn.
  destruct (is_str (prop job "job_id") jobId); reflexivity.
Qed.

Lemma keep_others_no_match (jobId : string) (prev : list obj) :
  (forall job, job ∈ prev -> prop job "job_id" <> JStr jobId) ->
  keep_others jobId prev = prev.
Proof.
  intros Hno. unfold keep_others. induction prev as [|job prev IH]; [reflexivity|].
  rewrite filter_cons_True by (apply is_str_false, Hno; now left).
  f_equal. apply IH. intros j Hj. apply Hno. now right.
Qed.

Lemma keep_others_elem (jobId : string) (prev : list obj) (job : obj) :
  job ∈ keep_others jobId prev <-> job ∈ prev /\ prop job "job_id" <> JStr jobId.
Proof.
  unfold keep_others. rewrite list_elem_of_filter, is_str_false. tauto.
Qed.

(** X1. On a list of entry objects [removeJob] does not throw; the new list
    holds exactly the entries whose [job_id] differs from the given id, in
    their old order; when no entry has the id the list is returned as it
    was; and removing the same id again changes nothing. *)
Theorem removeJob_drops_id (jobId : string) (prev : list obj) :
  exists next : list obj,
    removeJob jobId (JArr (JObj <$> prev)) = Normal (JArr (JObj <$> next))
    /\ (forall job, job ∈ next <-> job ∈ prev /\ prop job "job_id" <> JStr jobId)
    /\ sublist next prev
    /\ ((forall job, job ∈ prev -> prop job "job_id" <> JStr jobId) -> next = prev)
    /\ removeJob jobId (JArr (JObj <$> next)) = Normal (JArr (JObj <$> next)).
Proof.
  exists (keep_others jobId prev). split_all.
  - apply removeJob_objects.
  - apply keep_others_elem.
  - apply sublist_filter.
  - apply keep_others_no_match.
  - rewrite removeJob_objects. do 3 f_equal.
    apply keep_others_no_match. intros job Hjob. now apply keep_others_elem in Hjob.
Qed.

(** X2. A completion that arrives after the user removed the entry does
    not bring it back: on a list of entry objects, updating an id right after
    removing it returns the list without the entry, unchanged. *)
Theorem update_after_remove (jobId : string) (updates : obj) (prev : list obj) :
  (removed ← removeJob jobId (JArr (JObj <$> prev));
   updateJobStatus jobId updates removed)
  = removeJob jobId (JArr (JObj <$> prev)).
Proof.
  rewrite removeJob_objects, bind_normal.
  rewrite updateJobStatus_objects. do 3 f_equal.
  apply merge_entry_no_match. intros job Hjob. now apply keep_others_elem in Hjob.
Qed.

Lemma prependJob_objects (newJob : obj) (prev : list obj) :
  prependJob newJob (JArr (JObj <$> prev)) = Normal (JArr (JObj <$> newJob :: prev)).
Proof. reflexivity. Qed.

Lemma testcases_newJob_fields (type title : string) (res : obj) (now : string) :
  let job := testcases_newJob type title res now in
  prop job "job_id" = prop res "job_id"
  /\ prop job "type" = JStr type
  /\ prop job "status" = JStr "pending"
  /\ prop job "progress" = JNum 10.
Proof.
  unfold testcases_newJob, prop. split_all.
  - now rewrite lookup_insert_eq.
  - rewrite lookup_insert_ne by discriminate. now rewrite lookup_insert_eq.
  - do 3 (rewrite lookup_insert_ne by discriminate). now rewrite lookup_insert_eq.
  - do 4 (rewrite lookup_insert_ne by discriminate). now rewrite lookup_insert_eq.
Qed.

(** X3. Submitting a UI or API test-case job puts a pending entry with
    progress 10 and the id of the response at the head of the list, before
    all older entries; its item watches that id; if no older entry has the
    id, removing it again gives back the old list. *)
Theorem submitted_job_is_head (type title : string) (res : obj) (now id : string)
    (prev : list obj) :
  prop res "job_id" = JStr id ->
  let newJob := testcases_newJob type title res now in
  prependJob newJob (JArr (JObj <$> prev)) = Normal (JArr (JObj <$> newJob :: prev))
  /\ prop newJob "status" = JStr "pending"
  /\ prop newJob "progress" = JNum 10
  /\ prop newJob "job_id" = JStr id
  /\ item_jobId newJob = JStr id
  /\ ((forall job, job ∈ prev -> prop job "job_id" <> JStr id) ->
      (added ← prependJob newJob (JArr (JObj <$> prev)); removeJob id added)
      = Normal (JArr (JObj <$> prev))).
Proof.
  intros Hid newJob.
  destruct (testcases_newJob_fields type title res now) as (Hj & _ & Hs & Hp).
  fold newJob in Hj, Hs, Hp. rewrite Hid in Hj. split_all; auto.
  intros Hfresh. rewrite prependJob_objects, bind_normal.
  rewrite removeJob_objects. do 3 f_equal. unfold keep_others.
  rewrite filter_cons_False.
  - now apply keep_others_no_match.
  - rewrite Hj. unfold is_str. rewrite bool_decide_eq_true_2 by reflexivity. discriminate.
Qed.

Lemma submitted_job_is_head_witness :
  (added ← prependJob (ui_newJob (job_with_status "j9" "pending") "2026-01-01T00:00:00.000Z")
             (JArr (JObj <$> [summary "j1" "pending" 10]));
   removeJob "j9" added)
  = Normal (JArr (JObj <$> [summary "j1" "pending" 10])).
Proof.
  destruct (submitted_job_is_head "ui" "UI кейсы" (job_with_status "j9" "pending")
              "2026-01-01T00:00:00.000Z" "j9" [summary "j1" "pending" 10])
    as (_ & _ & _ & _ & _ & Hback); [reflexivity|].
  apply Hback. intros job Hjob. apply list_elem_of_singleton in Hjob as ->.
  vm_compute. discriminate.
Defined.

(** ** Updates *)

Lemma spread_keeps_prop (job updates : obj) (k : string) :
  updates !! k = None -> prop (spread job updates) k = prop job k.
Proof. intros Hk. unfold prop. now rewrite spread_lookup, Hk. Qed.

Lemma merge_entry_keeps_prop (jobId : string) (updates job : obj) (k : string) :
  updates !! k = None -> prop (merge_entry jobId updates job) k = prop job k.
Proof.
  intros Hk. unfold merge_entry.
  destruct (is_str (prop job "job_id") jobId); [|reflexivity].
  now apply spread_keeps_prop.
Qed.

Lemma spread_twice (job updates : obj) :
  spread (spread job updates) updates = spread job updates.
Proof.
  apply map_eq. intros k. rewrite !spread_lookup. now destruct (updates !! k).
Qed.

Lemma merge_entry_twice (jobId : string) (updates job : obj) :
  merge_entry jobId updates (merge_entry jobId updates job)
  = merge_entry jobId updates job.
Proof.
  unfold merge_entry at 2 3.
  destruct (is_str (prop job "job_id") jobId) eqn:Hm.
  - unfold merge_entry.
    destruct (is_str (prop (spread job updates) "job_id") jobId); [|reflexivity].
    apply spread_twice.
  - unfold merge_entry. now rewrite Hm.
Qed.

(** X4. Applying the same update twice is the same as applying it once. *)
Theorem updateJobStatus_idempotent (jobId : string) (updates : obj) (prev : list obj) :
  (once ← updateJobStatus jobId updates (JArr (JObj <$> prev));
   updateJobStatus jobId updates once)
  = updateJobStatus jobId updates (JArr (JObj <$> prev)).
Proof.
  rewrite updateJobStatus_objects, bind_normal.
  rewrite updateJobStatus_objects. do 3 f_equal.
  rewrite <- list_fmap_compose. apply list_fmap_ext. intros _ job _.
  apply merge_entry_twice.
Qed.

Lemma merge_entry_comm (id1 id2 : string) (u1 u2 job : obj) :
  id1 <> id2 -> u1 !! "job_id" = None -> u2 !! "job_id" = None ->
  merge_entry id1 u1 (merge_entry id2 u2 job)
  = merge_entry id2 u2 (merge_entry id1 u1 job).
Proof.
  intros Hne H1 H2.
  unfold merge_entry at 1 3.
  rewrite (merge_entry_keeps_prop id2 u2 job "job_id" H2).
  rewrite (merge_entry_keeps_prop id1 u1 job "job_id" H1).
  destruct (is_str (prop job "job_id") id1) eqn:Hm1,
           (is_str (prop job "job_id") id2) eqn:Hm2.
  - apply is_str_true in Hm1, Hm2. congruence.
  - unfold merge_entry. now rewrite Hm1, Hm2.
  - unfold merge_entry. now rewrite Hm1, Hm2.
  - unfold merge_entry. now rewrite Hm1, Hm2.
Qed.

(** X5. Updates for two different ids that do not set [job_id] can be
    applied in either order: the watchers of two jobs do not disturb each
    other's entries. *)
Theorem updates_commute (id1 id2 : string) (u1 u2 : obj) (prev : list obj) :
  id1 <> id2 -> u1 !! "job_id" = None -> u2 !! "job_id" = None ->
  (l ← updateJobStatus id2 u2 (JArr (JObj <$> prev)); updateJobStatus id1 u1 l)
  = (l ← updateJobStatus id1 u1 (JArr (JObj <$> prev)); updateJobStatus id2 u2 l).
Proof.
  intros Hne H1 H2. rewrite !updateJobStatus_objects, !bind_normal.
  rewrite !updateJobStatus_objects. do 3 f_equal.
  rewrite <- !list_fmap_compose. apply list_fmap_ext. intros _ job _.
  now apply merge_entry_comm.
Qed.

Lemma updates_commute_witness :
  (l ← updateJobStatus "j2" (<["status" := JStr "failed"]> ∅)
         (JArr (JObj <$> [summary "j1" "pending" 10; summary "j2" "pending" 10]));
   updateJobStatus "j1" (<["progress" := JNum 100]> ∅) l)
  = (l ← updateJobStatus "j1" (<["progress" := JNum 100]> ∅)
           (JArr (JObj <$> [summary "j1" "pending" 10; summary "j2" "pending" 10]));
     updateJobStatus "j2" (<["status" := JStr "failed"]> ∅) l).
Proof.
  apply (updates_commute "j1" "j2"); [discriminate | reflexivity | reflexivity].
Defined.

(** ** Tabs *)

Lemma filteredJobs_objects (t : Tab) (jobs : list obj) :
  filteredJobs t (JArr (JObj <$> jobs)) = Normal (JArr (JObj <$> on_tab t jobs))
  /\ filteredJobs_autotests t (JArr (JObj <$> jobs))
     = Normal (JArr (JObj <$> on_tab t jobs)).
Proof.
  unfold filteredJobs, filteredJobs_autotests, array_filter, on_tab. split.
  - rewrite (filter_elems_objects _
               (fun job => is_str (prop job "type") (tab_name t) = true)); [reflexivity|].
    intros job. rewrite member_obj, bind_normal.
    destruct t; cbn [tab_name].
    + rewrite (bool_decide_eq_true_2 ("ui" = "ui")) by reflexivity.
      destruct (is_str (prop job "type") "ui"); reflexivity.
    + rewrite (bool_decide_eq_false_2 ("api" = "ui")) by discriminate.
      destruct (is_str (prop job "type") "api"); reflexivity.
  - rewrite (filter_elems_objects _
               (fun job => is_str (prop job "type") (tab_name t) = true)); [reflexivity|].
    intros job. rewrite member_obj, bind_normal.
    destruct (is_str (prop job "type") _); reflexivity.
Qed.

Lemma on_tab_lengths (jobs : list obj) :
  (length (on_tab UiTab jobs) + length (on_tab ApiTab jobs) <= length jobs)%nat
  /\ ((forall job, job ∈ jobs ->
         prop job "type" = JStr "ui" \/ prop job "type" = JStr "api") ->
      (length (on_tab UiTab jobs) + length (on_tab ApiTab jobs))%nat = length jobs).
Proof.
  unfold on_tab. cbn [tab_name]. induction jobs as [|job jobs [IHle IHeq]];
    [rewrite !filter_nil; split; [reflexivity | intros _; reflexivity]|].
  rewrite !filter_cons.
  destruct (decide (is_str (prop job "type") "ui" = true)) as [Hui|Hui];
    destruct (decide (is_str (prop job "type") "api" = true)) as [Hapi|Hapi].
  - apply is_str_true in Hui, Hapi. rewrite Hui in Hapi. discriminate.
  - split; [cbn [length]; lia|]. intros Hall. cbn [length].
    rewrite <- IHeq; [lia|]. intros j Hj. apply Hall. now right.
  - split; [cbn [length]; lia|]. intros Hall. cbn [length].
    rewrite <- IHeq; [lia|]. intros j Hj. apply Hall. now right.
  - split; [cbn [length]; lia|]. intros Hall. exfalso.
    destruct (Hall job) as [Hty|Hty]; [now left| |].
    + apply Hui. now apply is_str_true.
    + apply Hapi. now apply is_str_true.
Qed.

(** X6. On a list of entry objects the tab filters of the Testcases and
    Autotests pages do not throw and agree: a tab shows, in list order,
    exactly the entries whose [type] is the tab's name.  No entry is on both
    tabs, an entry with another [type] is on none, and when every entry has
    type ui or api the two tabs together show as many entries as the list
    holds. *)
Theorem tabs_split_the_list (jobs : list obj) :
  (forall t, filteredJobs t (JArr (JObj <$> jobs)) = Normal (JArr (JObj <$> on_tab t jobs))
             /\ filteredJobs_autotests t (JArr (JObj <$> jobs))
                = Normal (JArr (JObj <$> on_tab t jobs)))
  /\ (forall t job, job ∈ on_tab t jobs <-> job ∈ jobs /\ prop job "type" = JStr (tab_name t))
  /\ (forall job, job ∈ on_tab UiTab jobs -> job ∉ on_tab ApiTab jobs)
  /\ (forall t, sublist (on_tab t jobs) jobs)
  /\ (length (on_tab UiTab jobs) + length (on_tab ApiTab jobs) <= length jobs)%nat
  /\ ((forall job, job ∈ jobs ->
         prop job "type" = JStr "ui" \/ prop job "type" = JStr "api") ->
      (length (on_tab UiTab jobs) + length (on_tab ApiTab jobs))%nat = length jobs).
Proof.
  assert (Hin : forall t job,
            job ∈ on_tab t jobs <-> job ∈ jobs /\ prop job "type" = JStr (tab_name t)).
  { intros t job. unfold on_tab. rewrite list_elem_of_filter, is_str_true. tauto. }
  split_all.
  - intros t. apply filteredJobs_objects.
  - exact Hin.
  - intros job Hui Hapi. apply Hin in Hui as [_ Hui]. apply Hin in Hapi as [_ Hapi].
    rewrite Hui in Hapi. discriminate.
  - intros t. apply sublist_filter.
  - apply on_tab_lengths.
  - apply on_tab_lengths.
Qed.

(** ** The item view *)

Lemma mount_requests (jid : option string) (store : JsVal) :
  let s := mount jid store in
  requests s = (if has_id jid then [(0%nat, default "" jid)] else [])
  /\ interval s = has_id jid /\ isActive s = has_id jid
  /\ size (inflight s) = (if has_id jid then 1%nat else 0%nat)
  /\ job s = None /\ error s = None /\ done_calls s = [] /\ allJobs s = store.
Proof.
  state_eval. unfold enabled_of. cbn [pollable]. rewrite andb_true_r.
  destruct (has_id jid); split_all; reflexivity.
Qed.

(** X7. An item watches its entry unless the stored status is completed or
    failed: for those two the hook is given null and mounts without a request
    or a timer; for any other stored status (pending, processing, and also
    cancelled) it is given the entry's id, fetches it at once and starts the
    timer. *)
Theorem item_watches_unfinished (job : obj) (id : string) (store : JsVal) :
  prop job "job_id" = JStr id ->
  id <> "" ->
  let s := mount (as_jobId (item_jobId job)) store in
  if is_str (prop job "status") "completed" || is_str (prop job "status") "failed"
  then item_jobId job = JNull /\ requests s = [] /\ interval s = false
  else item_jobId job = JStr id /\ requests s = [(0%nat, id)] /\ interval s = true.
Proof.
  intros Hid Hne s. subst s. unfold item_jobId.
  destruct (is_str (prop job "status") "completed"),
           (is_str (prop job "status") "failed"); cbn [negb andb orb as_jobId];
    rewrite ?Hid; cbn [as_jobId];
    match goal with
    | |- context [mount ?j store] =>
        destruct (mount_requests j store) as (Hr & Ht & _)
    end;
    rewrite Hr, Ht; cbn [has_id default];
    rewrite ?bool_decide_eq_false_2 by exact Hne; auto.
Qed.

Lemma item_watches_unfinished_witness :
  item_jobId (summary "j1" "cancelled" 10) = JStr "j1"
  /\ requests (mount (as_jobId (item_jobId (summary "j1" "cancelled" 10))) one_pending_job)
     = [(0%nat, "j1")]
  /\ interval (mount (as_jobId (item_jobId (summary "j1" "cancelled" 10))) one_pending_job)
     = true.
Proof.
  apply (item_watches_unfinished (summary "j1" "cancelled" 10) "j1" one_pending_job);
    [reflexivity | discriminate].
Defined.

(** X8. The progress shown is [displayJob.progress] when that is truthy;
    when it is missing, null or 0 the status decides: 100 for completed, 50
    for processing, 10 for pending and 0 for anything else, so the value is
    never undefined.  Once a live view exists the stored entry plays no
    part. *)
Theorem progress_shown (liveJob : option obj) (job : obj) :
  let shown := progress (displayJob liveJob job) in
  let d := displayJob liveJob job in
  shown <> JUndefined
  /\ (truthy (prop d "progress") = true -> shown = prop d "progress")
  /\ (truthy (prop d "progress") = false ->
      (prop d "status" = JStr "completed" -> shown = JNum 100)
      /\ (prop d "status" = JStr "processing" -> shown = JNum 50)
      /\ (prop d "status" = JStr "pending" -> shown = JNum 10)
      /\ (prop d "status" <> JStr "completed" -> prop d "status" <> JStr "processing" ->
          prop d "status" <> JStr "pending" -> shown = JNum 0))
  /\ (forall live job', progress (displayJob (Some live) job)
                        = progress (displayJob (Some live) job')).
Proof.
  intros shown d. subst shown. unfold progress. fold d.
  destruct (truthy (prop d "progress")) eqn:Ht.
  - split_all; try discriminate; auto.
    intros Hu. rewrite Hu in Ht. discriminate.
  - split_all; try discriminate; auto.
    + destruct (is_str (prop d "status") "completed"),
               (is_str (prop d "status") "processing"),
               (is_str (prop d "status") "pending"); discriminate.
    + intros _. split_all.
      * intros ->. reflexivity.
      * intros ->. reflexivity.
      * intros ->. reflexivity.
      * intros H1 H2 H3. apply is_str_false in H1, H2, H3. now rewrite H1, H2, H3.
Qed.

Lemma progress_shown_witness :
  progress (displayJob None (<["progress" := JNum 0]> (job_with_status "j1" "completed")))
  = JNum 100.
Proof.
  destruct (progress_shown None
              (<["progress" := JNum 0]> (job_with_status "j1" "completed")))
    as (_ & _ & Hfallback & _).
  destruct Hfallback as (Hdone & _); reflexivity.
Defined.

(** ** Result counts *)

Lemma count_by_shapes_violations (job : JsVal) :
  getViolationsCount job = count_by_shapes "violations_count" "violations" job.
Proof. reflexivity. Qed.

Lemma count_by_shapes_recommendations (job : JsVal) :
  getRecommendationsCount job
  = count_by_shapes "recommendations_count" "recommendations" job.
Proof. reflexivity. Qed.

(** The rule table for any pair of property names, the second not being
    [length]. *)
Lemma count_by_shapes_table (count_field list_field : string) (job : obj) :
  list_field <> "length" ->
  count_by_shapes count_field list_field (JObj job)
  = Normal (first_applicable (shape_probes count_field list_field) job).
Proof.
  intros Hlf. unfold count_by_shapes, shape_probes, first_applicable.
  rewrite !member_obj. simpl.
  destruct (prop job count_field) eqn:Ec; simpl; try reflexivity.
  assert (Htop :
    (w ← Normal (prop job list_field);
     m ← opt_member w "length";
     if truthy m then w' ← Normal (prop job list_field); member w' "length"
     else Normal (JNum 0))
    = Normal (match length_if_any (prop job list_field) with
              | Some v => v | None => JNum 0 end)).
  { simpl. destruct (guarded_length (prop job list_field)) as (n & -> & Hn). simpl.
    destruct (length_if_any (prop job list_field)).
    - destruct Hn as [-> ->]. reflexivity.
    - rewrite Hn. reflexivity. }
  simpl in Htop.
  destruct (prop job "result") as [| |b|z|s|l|r] eqn:Er; simpl;
    rewrite ?(bool_decide_eq_false_2 _ Hlf); simpl; try exact Htop.
  destruct (guarded_length (prop r list_field)) as (n & Hn1 & Hn).
  unfold opt_member in *.
  destruct (nullish (prop r list_field)) eqn:En.
  - simpl. destruct (prop r list_field); try discriminate; simpl; exact Htop.
  - simpl. rewrite Hn1. simpl.
    destruct (length_if_any (prop r list_field)).
    + destruct Hn as [Ht Hm]. rewrite Ht. congruence.
    + rewrite Hn. exact Htop.
Qed.

(** X9. [getRecommendationsCount] of the Optimization page follows the same
    ordered rule table as the violations count, on the properties
    [recommendations_count], [result.recommendations] and [recommendations],
    and never throws on an object. *)
Theorem getRecommendationsCount_precedence (job : obj) :
  getRecommendationsCount (JObj job)
  = Normal (first_applicable
              (shape_probes "recommendations_count" "recommendations") job).
Proof.
  rewrite count_by_shapes_recommendations.
  apply count_by_shapes_table. discriminate.
Qed.

Lemma length_if_any_truthy (v c : JsVal) :
  length_if_any v = Some c -> truthy c = true.
Proof.
  destruct v as [| |b|z|s|l|m]; simpl; try discriminate.
  - destruct s; simpl; [discriminate|]. intros [= <-]. reflexivity.
  - destruct l; simpl; [discriminate|]. intros [= <-]. reflexivity.
  - destruct (truthy (prop m "length")) eqn:Ht; [|discriminate]. now intros [= <-].
Qed.

Lemma truthy_defined (v : JsVal) : truthy v = true -> v <> JUndefined.
Proof. intros Ht ->. discriminate. Qed.

Lemma first_shape_result (count_field list_field : string) (job : obj) :
  let v := first_applicable (shape_probes count_field list_field) job in
  v <> JUndefined
  /\ (prop job count_field = JUndefined -> v = JNum 0 \/ truthy v = true).
Proof.
  unfold shape_probes, first_applicable.
  destruct (prop job count_field) eqn:Ec;
    try (split; [discriminate | intros [=]]).
  assert (Hlen : forall w rest,
            rest <> JUndefined /\ (rest = JNum 0 \/ truthy rest = true) ->
            match length_if_any w with Some c => c | None => rest end <> JUndefined
            /\ (match length_if_any w with Some c => c | None => rest end = JNum 0
                \/ truthy match length_if_any w with Some c => c | None => rest end = true)).
  { intros w rest Hrest. destruct (length_if_any w) as [c|] eqn:Hw; [|exact Hrest].
    apply length_if_any_truthy in Hw. split; [now apply truthy_defined | now right]. }
  assert (Htop :
    match length_if_any (prop job list_field) with Some c => c | None => JNum 0 end
      <> JUndefined
    /\ (match length_if_any (prop job list_field) with Some c => c | None => JNum 0 end
          = JNum 0
        \/ truthy match length_if_any (prop job list_field) with
                  | Some c => c | None => JNum 0 end = true)).
  { apply Hlen. split; [discriminate | now left]. }
  destruct (prop job "result") as [| |b|z|s|l|r];
    try (split; [apply Htop | intros _; apply Htop]).
  destruct (Hlen (prop r list_field) _ Htop) as [Hd Hv].
  split; [exact Hd | intros _; exact Hv].
Qed.

(** X10. On an object both counts are values, never undefined; when the
    explicit count property is absent the count is zero or a truthy length. *)
Theorem counts_never_undefined (job : obj) :
  exists violations recommendations : JsVal,
    getViolationsCount (JObj job) = Normal violations
    /\ getRecommendationsCount (JObj job) = Normal recommendations
    /\ violations <> JUndefined /\ recommendations <> JUndefined
    /\ (prop job "violations_count" = JUndefined ->
        violations = JNum 0 \/ truthy violations = true)
    /\ (prop job "recommendations_count" = JUndefined ->
        recommendations = JNum 0 \/ truthy recommendations = true).
Proof.
  eexists _, _.
  split; [rewrite count_by_shapes_violations; apply count_by_shapes_table; discriminate|].
  split; [rewrite count_by_shapes_recommendations; apply count_by_shapes_table; discriminate|].
  destruct (first_shape_result "violations_count" "violations" job) as [Hv1 Hv2].
  destruct (first_shape_result "recommendations_count" "recommendations" job) as [Hr1 Hr2].
  auto.
Qed.

(** ** What the fetchers' schemas leave of a response *)

Lemma absent_field (fields : list string) (job : obj) (k : string) :
  only_fields fields job -> k ∉ fields -> prop job k = JUndefined.
Proof.
  intros Honly Hk. unfold prop. destruct (job !! k) eqn:Hj; [|reflexivity].
  exfalso. apply Hk, Honly. eauto.
Qed.

Ltac not_a_field :=
  let Hin := fresh "Hin" in
  intros Hin; apply list_elem_of_In in Hin; simpl in Hin;
  repeat (destruct Hin as [Hin|Hin]; [discriminate Hin|]); exact Hin.

Lemma standards_count_zero (live : obj) :
  only_fields standards_job_fields live ->
  getViolationsCount (JObj live) = Normal (JNum 0).
Proof.
  intros Honly.
  rewrite count_by_shapes_violations, count_by_shapes_table by discriminate.
  unfold shape_probes, first_applicable.
  rewrite (absent_field _ _ "violations_count" Honly) by not_a_field.
  rewrite (absent_field _ _ "result" Honly) by not_a_field.
  rewrite (absent_field _ _ "violations" Honly) by not_a_field.
  reflexivity.
Qed.

(** X11. A live view that holds only the fields kept by the schema of the
    standards fetcher (the job response fields and [testcases]) has none of
    the three violation shapes: [getViolationsCount] gives 0 for it, and the
    completion callback of the Standards page writes [violations_count: 0]
    beside the view's status and progress 100. *)
Theorem standards_live_count_is_zero (live : obj) :
  only_fields standards_job_fields live ->
  getViolationsCount (JObj live) = Normal (JNum 0)
  /\ done_updates Standards (JObj live)
     = Normal (<["status" := prop live "status"]>
               (<["progress" := JNum 100]>
               (<["violations_count" := JNum 0]> ∅))).
Proof.
  intros Honly. split; [now apply standards_count_zero|].
  unfold done_updates. rewrite (standards_count_zero live Honly), bind_normal.
  now rewrite member_obj, bind_normal.
Qed.

Lemma job_with_status_fields (id status : string) :
  only_fields jobResponse_fields (job_with_status id status).
Proof.
  intros k [v Hk]. unfold job_with_status in Hk.
  apply lookup_insert_Some in Hk as [[<- _] | [_ Hk]]; [set_solver|].
  apply lookup_insert_Some in Hk as [[<- _] | [_ Hk]]; [set_solver|].
  now rewrite lookup_empty in Hk.
Qed.

Lemma standards_live_count_is_zero_witness :
  getViolationsCount (JObj (job_with_status "j1" "completed")) = Normal (JNum 0).
Proof.
  apply (standards_live_count_is_zero (job_with_status "j1" "completed")).
  intros k Hk. apply elem_of_app. left. now apply (job_with_status_fields "j1" "completed").
Defined.

(** X12. A live view that holds only the fields kept by the schema of the
    optimization fetcher (the job response fields and [recommendations]) can
    only show the third shape: when [recommendations] is an array the count is
    its length, and when it is absent the count is 0. *)
Theorem optimization_live_count (live : obj) :
  only_fields optimization_job_fields live ->
  (forall l, prop live "recommendations" = JArr l ->
             getRecommendationsCount (JObj live) = Normal (JNum (Z.of_nat (length l))))
  /\ (prop live "recommendations" = JUndefined ->
      getRecommendationsCount (JObj live) = Normal (JNum 0)).
Proof.
  intros Honly.
  rewrite count_by_shapes_recommendations, count_by_shapes_table by discriminate.
  unfold shape_probes, first_applicable.
  rewrite (absent_field _ _ "recommendations_count" Honly) by not_a_field.
  rewrite (absent_field _ _ "result" Honly) by not_a_field.
  split.
  - intros l ->. destruct l; reflexivity.
  - intros ->. reflexivity.
Qed.

Lemma optimization_live_count_witness :
  getRecommendationsCount
    (JObj (<["recommendations" := JArr [JNull; JNull]]> (job_with_status "j1" "completed")))
  = Normal (JNum 2).
Proof.
  destruct (optimization_live_count
              (<["recommendations" := JArr [JNull; JNull]]> (job_with_status "j1" "completed")))
    as [Harr _].
  - intros k [v Hk]. apply lookup_insert_Some in Hk as [[<- _] | [_ Hk]]; [set_solver|].
    apply elem_of_app. left. apply (job_with_status_fields "j1" "completed"). eauto.
  - apply (Harr [JNull; JNull]). reflexivity.
Defined.

(** ** What a completion callback changes *)

Lemma done_updates_object (p : Page) (live : obj) :
  exists meta : JsVal,
    done_updates p (JObj live)
    = Normal (<["status" := prop live "status"]>
              (<["progress" := JNum 100]>
              (<[result_field p := meta]> ∅))).
Proof.
  destruct p; unfold done_updates, result_field.
  - eexists. rewrite !member_obj, !bind_normal. reflexivity.
  - eexists. rewrite !member_obj, !bind_normal. reflexivity.
  - eexists. rewrite count_by_shapes_violations, count_by_shapes_table by discriminate.
    rewrite bind_normal, member_obj, bind_normal. reflexivity.
  - eexists. rewrite count_by_shapes_recommendations, count_by_shapes_table by discriminate.
    rewrite bind_normal, member_obj, bind_normal. reflexivity.
Qed.

Lemma three_fields_lookup (status meta : JsVal) (field k : string) :
  k <> "status" -> k <> "progress" -> k <> field ->
  (<["status" := status]> (<["progress" := JNum 100]> (<[field := meta]> ∅)) : obj) !! k
  = None.
Proof.
  intros H1 H2 H3.
  rewrite !lookup_insert_ne by congruence. apply lookup_empty.
Qed.

(** X13. With a live view the completion callback of every page queues an
    updater and does not throw.  On a list of entry objects that updater does
    not throw, keeps the length and the position of every entry, leaves the
    entries with another id as they are, and in the entry with the item's id
    sets [status] to the view's status and [progress] to 100 and changes no
    property other than [status], [progress] and the page's result field. *)
Theorem callback_touches_three_fields (p : Page) (job_id : string) (live : obj)
    (prev : list obj) :
  exists (updater : JsVal -> Completion JsVal) (next : list obj),
    item_onDone p job_id (Some live) = Normal (Some updater)
    /\ updater (JArr (JObj <$> prev)) = Normal (JArr (JObj <$> next))
    /\ length next = length prev
    /\ (forall (i : nat) (job : obj),
          prev !! i = Some job ->
          exists job' : obj,
            next !! i = Some job'
            /\ (prop job "job_id" <> JStr job_id -> job' = job)
            /\ (prop job "job_id" = JStr job_id ->
                prop job' "status" = prop live "status"
                /\ prop job' "progress" = JNum 100)
            /\ (forall k, k <> "status" -> k <> "progress" -> k <> result_field p ->
                          job' !! k = job !! k)).
Proof.
  destruct (done_updates_object p live) as [meta Hupd].
  eexists _, (merge_entry job_id _ <$> prev).
  split; [unfold item_onDone; rewrite Hupd, bind_normal; reflexivity|].
  split; [apply updateJobStatus_objects|].
  split; [apply length_fmap|].
  intros i job Hi. eexists. split; [rewrite list_lookup_fmap, Hi; reflexivity|].
  unfold merge_entry.
  destruct (is_str (prop job "job_id") job_id) eqn:Hm.
  - split_all.
    + intros Hne. apply is_str_false in Hne. congruence.
    + intros _. unfold prop. rewrite !spread_lookup, lookup_insert_eq.
      rewrite lookup_insert_ne by discriminate. rewrite lookup_insert_eq.
      split; reflexivity.
    + intros k H1 H2 H3. rewrite spread_lookup.
      now rewrite three_fields_lookup.
  - split_all; auto. intros Heq. apply is_str_true in Heq. congruence.
Qed.

(** ** What the callback writes, and from which view *)

(** C10. In the item components the callback works on the live view held
    by the closure of the render that preceded the request, not on the result
    that triggered it.  (1) When a request whose closure holds a view
    resolves with a completed or failed result, the call is logged with that
    view and, the page being mounted, every entry of the list with the item's
    id gets the status of that view, whatever the status of the result, and
    progress 100, while the other entries stay as they are; once the page is
    gone the list stays as it was.  (2) When the closure holds a null view
    the callback is called and the list is unchanged.  (3) The closure of a
    request started by the timer after a render holds the view of that
    render.  (4) So when no request has resolved before, the first completed
    or failed result calls the callback with a null view and the list stays
    as it was at mount. *)
Theorem callback_reads_render_view (p : Page) (job_id : string) :
  let onDone := Some (item_onDone p job_id) in
  (forall (s : State) (id : nat) (c : PollClosure) (result view : obj)
          (jobs : list obj),
     inflight s !! id = Some c -> is_done result = true ->
     cl_liveJob c = Some view ->
     allJobs s = JArr (JObj <$> jobs) ->
     let s' := step onDone s (Settles id (Resolved result)) in
     done_calls s' = done_calls s ++ [(id, Some view)]
     /\ exists next : list obj,
          allJobs s' = JArr (JObj <$> next)
          /\ length next = length jobs
          /\ (page_mounted s = true ->
              forall (i : nat) (job : obj),
                jobs !! i = Some job ->
                exists job' : obj,
                  next !! i = Some job'
                  /\ (prop job "job_id" = JStr job_id ->
                      prop job' "status" = prop view "status"
                      /\ prop job' "progress" = JNum 100)
                  /\ (prop job "job_id" <> JStr job_id -> job' = job))
          /\ (page_mounted s = false -> next = jobs))
  /\ (forall (s : State) (id : nat) (c : PollClosure) (result : obj),
       inflight s !! id = Some c -> is_done result = true ->
       cl_liveJob c = None ->
       let s' := step onDone s (Settles id (Resolved result)) in
       done_calls s' = done_calls s ++ [(id, None)] /\ allJobs s' = allJobs s)
  /\ (forall (s : State) (jid : option string),
       reachable onDone s -> mounted s = true ->
       enabled_of jid (job s) = true ->
       let s1 := step onDone s (Render jid) in
       let s2 := step onDone s1 TimerFires in
       inflight s2 !! next_id s1 = Some {| cl_jobId := jid; cl_liveJob := job s |})
  /\ (forall (jid : option string) (store : JsVal) (trace : list Event)
            (id : nat) (result : obj),
       no_result_yet trace = true ->
       let s := run onDone (mount jid store) trace in
       is_Some (inflight s !! id) -> is_done result = true ->
       let s' := step onDone s (Settles id (Resolved result)) in
       done_calls s' = [(id, None)] /\ allJobs s' = store).
Proof.
  intros onDone. split_all.
  - intros s id c result view jobs Hc Hdone Hview Hjobs s'. subst s'.
    rewrite (settle_done_calls onDone s id c result Hc), Hdone, Hview.
    split; [reflexivity|].
    rewrite (settle_allJobs onDone s id c result Hc), Hdone, Hview, andb_true_r.
    destruct (done_updates_object p view) as [meta Hupd].
    destruct (page_mounted s) eqn:Hp.
    + exists (merge_entry job_id
                (<["status" := prop view "status"]>
                 (<["progress" := JNum 100]> (<[result_field p := meta]> ∅)))
              <$> jobs).
      split_all.
      * unfold onDone, store_after, item_onDone.
        now rewrite Hupd, bind_normal, Hjobs, updateJobStatus_objects.
      * apply length_fmap.
      * intros _ i job Hi. eexists.
        split; [rewrite list_lookup_fmap, Hi; reflexivity|].
        unfold merge_entry.
        destruct (is_str (prop job "job_id") job_id) eqn:Hm.
        -- split.
           ++ intros _. unfold prop. rewrite !spread_lookup, lookup_insert_eq.
              rewrite lookup_insert_ne by discriminate. rewrite lookup_insert_eq.
              split; reflexivity.
           ++ intros Hne. apply is_str_false in Hne. congruence.
        -- split; [|reflexivity].
           intros Heq. apply is_str_true in Heq. congruence.
      * discriminate.
    + exists jobs. split_all; auto. discriminate.
  - intros s id c result Hc Hdone Hview s'. subst s'.
    rewrite (settle_done_calls onDone s id c result Hc), Hdone, Hview.
    rewrite (settle_allJobs onDone s id c result Hc), Hdone, Hview.
    split; [reflexivity|]. now destruct (page_mounted s).
  - intros s jid Hreach Hm Hen.
    apply tick_uses_render_view; [now apply (reachable_consistent onDone)|exact Hm|exact Hen].
  - intros jid store trace id result Hno s [c Hc] Hdone s'. subst s'.
    destruct (nothing_fetched_run onDone store _ trace
                (nothing_fetched_mount jid store) Hno)
      as (_ & _ & Hfl & Hst & Hdc).
    fold s in Hfl, Hst, Hdc.
    rewrite (settle_done_calls onDone s id c result Hc).
    rewrite (settle_allJobs onDone s id c result Hc), Hdone, Hdc, (Hfl id c Hc), Hst.
    split; [reflexivity|]. now destruct (page_mounted s).
Qed.

(** The job is seen processing and rendered; the request of the next tick
    brings the completed job, and the entry is saved as processing. *)
Lemma callback_reads_render_view_witness :
  let s := run standards_onDone (mount (Some "j1") one_pending_job)
             [ Settles 0 (Resolved (job_with_status "j1" "processing"));
               Render (Some "j1");
               TimerFires ] in
  let s' := step standards_onDone s
              (Settles 1 (Resolved (job_with_status "j1" "completed"))) in
  done_calls s' = done_calls s ++ [(1%nat, Some (job_with_status "j1" "processing"))]
  /\ exists job' : obj,
       allJobs s' = JArr [JObj job']
       /\ prop job' "status" = JStr "processing"
       /\ prop job' "progress" = JNum 100.
Proof.
  intros s s'.
  destruct (callback_reads_render_view Standards "j1") as (Hwrite & _).
  destruct (Hwrite s 1%nat
              {| cl_jobId := Some "j1";
                 cl_liveJob := Some (job_with_status "j1" "processing") |}
              (job_with_status "j1" "completed")
              (job_with_status "j1" "processing")
              [summary "j1" "pending" 10])
    as (Hcalls & next & Hnext & Hlen & Hon & _);
    [vm_compute; reflexivity | vm_compute; reflexivity | reflexivity | reflexivity |].
  split; [exact Hcalls|].
  destruct (Hon eq_refl 0%nat (summary "j1" "pending" 10) eq_refl)
    as (job' & Hjob' & Hsame & _).
  destruct (Hsame eq_refl) as [Hstatus Hprogress].
  exists job'. split; [|split; [exact Hstatus | exact Hprogress]].
  refine (eq_trans Hnext _).
  destruct next as [|x [|y next]]; try discriminate Hlen.
  injection Hjob' as ->. reflexivity.
Defined.

(** ** Mount effects of a page *)

Lemma queued_jobs_hydrate (parse : string -> Completion JsVal) (p : Page)
    (st : Storage) :
  hydrate parse p st
  = Normal (default (JArr []) (queued_jobs parse p st).1, (queued_jobs parse p st).2).
Proof.
  unfold hydrate, load_saved_jobs, queued_jobs.
  destruct (getItem (page_key p) st) as [savedJobs|]; [|reflexivity].
  destruct (truthy (JStr savedJobs)); [|reflexivity].
  destruct (parse savedJobs); reflexivity.
Qed.

(** [filter] throws when its callback throws on some element. *)
Lemma filter_elems_throws (f : JsVal -> Completion bool) (l : list JsVal) (x : JsVal) :
  x ∈ l -> f x = Throw "TypeError" ->
  (forall y, (exists b, f y = Normal b) \/ f y = Throw "TypeError") ->
  filter_elems f l = Throw "TypeError".
Proof.
  intros Hx Hfx Hf. induction l as [|y l IH]; [now apply elem_of_nil in Hx|].
  cbn [filter_elems].
  destruct (Hf y) as [[b Hb] | Hy]; [|now rewrite Hy].
  rewrite Hb, bind_normal.
  apply elem_of_cons in Hx as [-> | Hx]; [congruence|].
  now rewrite (IH Hx).
Qed.

Lemma member_returns_or_throws (v : JsVal) (k : string) :
  (exists w, member v k = Normal w) \/ member v k = Throw "TypeError".
Proof. destruct v; cbn; eauto. Qed.

(** [allJobs.filter(job => ... job.type ...)] throws on anything but an
    array, and on an array that holds [null]. *)
Lemma filteredJobs_unshowable (t : Tab) (v : JsVal) :
  match v with JArr l => JNull ∈ l | _ => True end ->
  filteredJobs t v = Throw "TypeError"
  /\ filteredJobs_autotests t v = Throw "TypeError".
Proof.
  destruct v as [| | | | |l|]; intros H; try (split; reflexivity).
  unfold filteredJobs, filteredJobs_autotests, array_filter.
  split.
  - rewrite (filter_elems_throws _ l JNull H); [reflexivity..|].
    intros y. destruct (member_returns_or_throws y "type") as [[w ->] | ->]; eauto.
  - rewrite (filter_elems_throws _ l JNull H); [reflexivity..|].
    intros y. destruct (member_returns_or_throws y "type") as [[w ->] | ->]; eauto.
Qed.

(** X14. A page whose first render returns is mounted as follows.  The two
    mount effects leave the text of the empty list in the page's entry,
    whatever had been saved.  If the page then renders the hydrated list,
    the mount settles with that list and the entry holds its text; if that
    render throws, the page is taken down and the entry is left holding the
    text of the empty list.  No other storage entry is touched in either
    case.  A saved text that is missing, empty or rejected by JSON.parse
    always settles with the empty list and its text.  A saved text that
    parses to [null] takes the page down on every page; on the Testcases and
    Autotests pages so does one that parses to anything but an array, or to
    an array that holds [null], because [allJobs.filter] throws. *)
Theorem page_mount_rewrites_entry
    (parse : string -> Completion JsVal) (stringify : JsVal -> string)
    (render : Page -> JsVal -> Completion unit)
    (p : Page) (st : Storage) :
  page_render render p (JArr []) = Normal tt ->
  exists (jobs : JsVal) (log : list LogEntry),
    hydrate parse p st = Normal (jobs, log)
    /\ mount_effects parse stringify p st
       = Normal (jobs, log, <[page_key p := stringify (JArr [])]> st)
    /\ (page_render render p jobs = Normal tt ->
        page_mount parse stringify render p st
        = Settled jobs log (<[page_key p := stringify jobs]> st))
    /\ (forall e, page_render render p jobs = Throw e ->
        page_mount parse stringify render p st
        = Crashed e log (<[page_key p := stringify (JArr [])]> st))
    /\ (forall key, key <> page_key p ->
          storage_of (page_mount parse stringify render p st) !! key = st !! key)
    /\ (match getItem (page_key p) st with
        | None => True
        | Some savedJobs =>
            savedJobs = "" \/ (exists e, parse savedJobs = Throw e)
        end ->
        jobs = JArr []
        /\ page_mount parse stringify render p st
           = Settled (JArr []) log (<[page_key p := stringify (JArr [])]> st))
    /\ (jobs = JNull
        \/ ((p = Testcases \/ p = Autotests)
            /\ match jobs with JArr l => JNull ∈ l | _ => True end) ->
        page_mount parse stringify render p st
        = Crashed "TypeError" log (<[page_key p := stringify (JArr [])]> st)).
Proof.
  intros Hfirst.
  pose proof (queued_jobs_hydrate parse p st) as Hhyd.
  exists (default (JArr []) (queued_jobs parse p st).1), (queued_jobs parse p st).2.
  assert (Hok : forall jobs,
            (queued_jobs parse p st).1 = Some jobs \/
            ((queued_jobs parse p st).1 = None /\ jobs = JArr []) ->
            page_render render p jobs = Normal tt ->
            page_mount parse stringify render p st
            = Settled jobs (queued_jobs parse p st).2 (<[page_key p := stringify jobs]> st)).
  { intros jobs Hq Hr. unfold page_mount. rewrite Hfirst. cbv zeta.
    destruct Hq as [-> | [-> ->]].
    - rewrite Hr. unfold save_jobs, setItem. now rewrite insert_insert_eq.
    - reflexivity. }
  assert (Hbad : forall jobs e,
            (queued_jobs parse p st).1 = Some jobs \/
            ((queued_jobs parse p st).1 = None /\ jobs = JArr []) ->
            page_render render p jobs = Throw e ->
            page_mount parse stringify render p st
            = Crashed e (queued_jobs parse p st).2 (<[page_key p := stringify (JArr [])]> st)).
  { intros jobs e Hq Hr. unfold page_mount. rewrite Hfirst. cbv zeta.
    destruct Hq as [-> | [_ ->]]; [now rewrite Hr | congruence]. }
  assert (Hq : (queued_jobs parse p st).1
               = Some (default (JArr []) (queued_jobs parse p st).1)
               \/ ((queued_jobs parse p st).1 = None
                   /\ default (JArr []) (queued_jobs parse p st).1 = JArr [])).
  { destruct (queued_jobs parse p st).1; [left | right]; auto. }
  split_all.
  - exact Hhyd.
  - unfold mount_effects. fold (hydrate parse p st). rewrite Hhyd, bind_normal.
    reflexivity.
  - intros Hr. exact (Hok _ Hq Hr).
  - intros e Hr. exact (Hbad _ e Hq Hr).
  - intros key Hkey.
    destruct (page_render render p (default (JArr []) (queued_jobs parse p st).1))
      as [[]|e] eqn:Hr.
    + rewrite (Hok _ Hq Hr). cbn [storage_of]. now rewrite lookup_insert_ne.
    + rewrite (Hbad _ e Hq Hr). cbn [storage_of]. now rewrite lookup_insert_ne.
  - intros Hsaved.
    assert (Hnone : (queued_jobs parse p st).1 = None).
    { unfold queued_jobs.
      destruct (getItem (page_key p) st) as [savedJobs|]; [|reflexivity].
      destruct Hsaved as [-> | [e He]]; [reflexivity|].
      destruct (truthy (JStr savedJobs)); [|reflexivity]. now rewrite He. }
    rewrite Hnone. split; [reflexivity|].
    apply (Hok (JArr [])); [right; auto | exact Hfirst].
  - intros Hjobs.
    apply (Hbad _ _ Hq).
    assert (Hshown : (p = Testcases \/ p = Autotests)
                     /\ match default (JArr []) (queued_jobs parse p st).1 with
                        | JArr l => JNull ∈ l
                        | _ => True
                        end
                     \/ ((p = Standards \/ p = Optimization)
                         /\ default (JArr []) (queued_jobs parse p st).1 = JNull)).
    { destruct Hjobs as [Hnull | Hshown]; [|now left].
      destruct p; [left | left | right | right]; rewrite Hnull; auto. }
    unfold page_render.
    destruct Hshown as [[Hp Hbadlist] | [Hp ->]].
    + destruct (filteredJobs_unshowable UiTab _ Hbadlist) as [Ht Ha].
      destruct Hp as [-> | ->]; [now rewrite Ht | now rewrite Ha].
    + destruct Hp as [-> | ->]; reflexivity.
Qed.

(** A saved text [null] on the Testcases page: the first render and the
    effects pass, the render of the loaded value throws, and the entry is
    left holding the text of the empty list. *)
Lemma page_mount_rewrites_entry_witness :
  page_mount parse_null print_empty_array show_all Testcases
    (<["testops_jobs" := "null"]> ∅)
  = Crashed "TypeError" []
      (<["testops_jobs" := "[]"]> (<["testops_jobs" := "null"]> ∅)).
Proof.
  destruct (page_mount_rewrites_entry parse_null print_empty_array show_all
              Testcases (<["testops_jobs" := "null"]> ∅) eq_refl)
    as (jobs & log & Hhyd & _ & _ & _ & _ & _ & Hcrash).
  injection Hhyd as <- <-.
  apply Hcrash. now left.
Defined.



(** ** Checkbox selections *)

Lemma filter_other_id (c : string) (prev : list string) :
  c ∉ prev -> filter (fun x => x <> c) prev = prev.
Proof.
  intros Hc. induction prev as [|x prev IH]; [reflexivity|].
  rewrite filter_cons_True by (intros ->; apply Hc; now left).
  f_equal. apply IH. intros Hin. apply Hc. now right.
Qed.

(** X16. Ticking a checkbox flips whether its item is selected and leaves
    every other item selected or not as it was; a selection without repeats
    stays without repeats; ticking an unselected item twice gives back the
    selection it started from. *)
Theorem toggle_flips (c : string) (prev : list string) :
  (c ∈ toggle c prev <-> c ∉ prev)
  /\ (forall x, x <> c -> (x ∈ toggle c prev <-> x ∈ prev))
  /\ (NoDup prev -> NoDup (toggle c prev))
  /\ (c ∉ prev -> toggle c (toggle c prev) = prev).
Proof.
  unfold toggle.
  destruct (bool_decide (c ∈ prev)) eqn:Hc.
  - apply bool_decide_eq_true in Hc. split_all.
    + rewrite list_elem_of_filter. split; [intros [Hne _]; congruence | contradiction].
    + intros x Hx. rewrite list_elem_of_filter. tauto.
    + apply NoDup_filter.
    + contradiction.
  - apply bool_decide_eq_false in Hc. split_all.
    + rewrite elem_of_app, list_elem_of_singleton. tauto.
    + intros x Hx. rewrite elem_of_app, list_elem_of_singleton. tauto.
    + intros Hnd. apply NoDup_app. split; [exact Hnd|]. split; [|apply NoDup_singleton].
      intros x Hx Hx'. apply list_elem_of_singleton in Hx' as ->. contradiction.
    + intros _.
      rewrite bool_decide_eq_true_2 by (apply elem_of_app; right; now left).
      rewrite filter_app, (filter_other_id c prev Hc).
      rewrite filter_cons_False by (intros Hne; now apply Hne).
      rewrite filter_nil. apply app_nil_r.
Qed.

(** ** More on the watcher *)

Ltac state_eval2 :=
  state_eval;
  cbv beta iota zeta delta [idle_watcher at_rest requests_logged] in *;
  state_eval.

Section WatcherRuns.
Variable onDone : option Callback.

#[local] Abbreviation step := (step onDone).
#[local] Abbreviation run := (run onDone).

Lemma has_id_some (jid : option string) :
  has_id jid = true -> exists id, jid = Some id /\ id <> "".
Proof.
  destruct jid as [id|]; [|discriminate]. cbn. intros Hid. exists id. split; [reflexivity|].
  intros ->. discriminate.
Qed.

Lemma settle_keeps_effect (s : State) (id : nat) (o : Outcome) :
  let s' := step s (Settles id o) in
  mounted s' = mounted s /\ interval s' = interval s /\ enabled s' = enabled s
  /\ requests s' = requests s /\ next_id s' = next_id s
  /\ (forall id' c', inflight s' !! id' = Some c' -> inflight s !! id' = Some c').
Proof.
  open_state s. state_eval.
  destruct (s_fl !! id) as [c|] eqn:Hc; [|split_all; auto].
  assert (Hdel : forall id' c', delete id s_fl !! id' = Some c' -> s_fl !! id' = Some c').
  { intros id' c' Hd. now apply lookup_delete_Some in Hd as [_ Hd]. }
  destruct o as [result|message]; [|split_all; auto].
  destruct (is_done result); [|split_all; auto].
  destruct onDone as [cb|]; [|split_all; auto].
  destruct (cb _) as [[upd|]|e]; split_all; auto.
Qed.

Lemma error_text_not_empty (message : option string) : error_text message <> "".
Proof.
  unfold error_text. destruct message as [m|]; [|discriminate].
  destruct (bool_decide (m = "")) eqn:Hm; [discriminate|].
  now apply bool_decide_eq_false in Hm.
Qed.

Lemma rejected_console (s : State) (id : nat) (c : PollClosure) (message : option string) :
  inflight s !! id = Some c ->
  console (step s (Settles id (Rejected message)))
  = console s ++ [FetchFailed (default "" message)].
Proof. open_state s. intros Hc. state_eval. now rewrite Hc. Qed.

(** X17. A rejected fetch is not terminal: the live view, the job list and
    the callback log stay as they are, the error becomes the error's message
    (or "Failed to fetch job" when it has none or an empty one), the failure
    is logged, and whether the timer runs after the next render is not
    affected.  A later result that does not call the callback clears the
    error. *)
Theorem failed_fetch_is_transient
    (s : State) (id : nat) (c : PollClosure) (message : option string) :
  reachable onDone s ->
  mounted s = true ->
  inflight s !! id = Some c ->
  let s' := step s (Settles id (Rejected message)) in
  job s' = job s
  /\ error s' = Some (error_text message) /\ error_text message <> ""
  /\ done_calls s' = done_calls s /\ allJobs s' = allJobs s
  /\ console s' = console s ++ [FetchFailed (default "" message)]
  /\ interval s' = interval s
  /\ (forall jid, interval (step s' (Render jid)) = interval (step s (Render jid)))
  /\ (forall id' c' result,
        inflight s' !! id' = Some c' -> is_done result = false ->
        error (step s' (Settles id' (Resolved result))) = None).
Proof.
  intros Hreach Hm Hc s'.
  destruct (settle_rejected onDone s id c message Hm Hc) as (Hj & He & Hd & Ha).
  destruct (settle_keeps_effect s id (Rejected message)) as (Hm' & Ht & _).
  fold s' in Hj, He, Hd, Ha, Hm', Ht.
  assert (Hcons : effect_consistent s) by now apply (reachable_consistent onDone).
  assert (Hcons' : effect_consistent s')
    by now apply (reachable_consistent onDone), reachable_step.
  split_all; auto.
  - apply error_text_not_empty.
  - now apply (rejected_console s id c).
  - intros jid.
    destruct (render_facts onDone s jid Hcons Hm) as (_ & _ & _ & _ & _ & -> & _).
    destruct (render_facts onDone s' jid Hcons') as (_ & _ & _ & _ & _ & -> & _);
      [congruence|]. now rewrite Hj.
  - intros id' c' result Hc' Hnd.
    rewrite (settle_resolved_error onDone s' id' c' result) by congruence.
    now rewrite Hnd.
Qed.

(** A step leaves the request log alone or appends one request, for a
    non-empty id, under the next number. *)
Lemma step_issues (s : State) (e : Event) :
  let s' := step s e in
  (requests s' = requests s /\ next_id s' = next_id s
   /\ (forall id c, inflight s' !! id = Some c -> inflight s !! id = Some c))
  \/ (exists id, id <> "" /\ cl_jobId (savedCallback s') = Some id
                 /\ requests s' = requests s ++ [(next_id s, id)]
                 /\ next_id s' = S (next_id s)
                 /\ inflight s' = <[next_id s := savedCallback s']> (inflight s)).
Proof.
  destruct e as [jid| |id o| |].
  - open_state s. state_eval.
    destruct s_m; [|left; auto].
    destruct (enabled_of jid s_j), s_en; try (left; now auto);
      destruct (has_id jid) eqn:Hid; try (left; now auto);
      destruct (has_id_some jid Hid) as (id & -> & Hne);
      right; exists id; auto.
  - open_state s. state_eval.
    destruct s_tm; [|left; auto]. destruct s_act; [|left; auto].
    destruct (has_id _) eqn:Hid; [|left; auto].
    destruct s_sc as [jid live]. cbn in Hid |- *.
    destruct (has_id_some jid Hid) as (id & -> & Hne).
    right. exists id. auto.
  - left. now destruct (settle_keeps_effect s id o) as (_ & _ & _ & -> & -> & Hfl).
  - left. open_state s. state_eval. destruct s_m; [|auto]. destruct s_en; auto.
  - left. open_state s. state_eval. destruct s_m; [|auto]. destruct s_en; auto.
Qed.

Lemma requests_logged_mount (jid : option string) (store : JsVal) :
  requests_logged (mount jid store).
Proof.
  state_eval2.
  destruct (enabled_of jid None); [destruct (has_id jid) eqn:Hid|];
    try (split_all; [reflexivity | intros r Hr; now apply elem_of_nil in Hr
                     | intros id c Hc; now rewrite lookup_empty in Hc]).
  destruct (has_id_some jid Hid) as (id & -> & Hne). split_all.
  - reflexivity.
  - intros r Hr. apply list_elem_of_singleton in Hr as ->. exact Hne.
  - intros k c Hc. apply lookup_insert_Some in Hc as [[<- <-] | [_ Hc]]; [now left|].
    now rewrite lookup_empty in Hc.
Qed.

Lemma requests_logged_step (s : State) (e : Event) :
  requests_logged s -> requests_logged (step s e).
Proof.
  intros (Hnum & Hids & Hfl).
  destruct (step_issues s e) as [(Hr & Hn & Hsub) | (id & Hne & Hsc & Hr & Hn & Hi)];
    unfold requests_logged; rewrite Hr, Hn.
  - split_all; auto.
  - split_all.
    + rewrite fmap_app, Hnum, seq_S. reflexivity.
    + intros r Hin. apply elem_of_app in Hin as [Hin | Hin]; [now apply Hids|].
      apply list_elem_of_singleton in Hin as ->. exact Hne.
    + intros k c Hc. rewrite Hi in Hc. apply elem_of_app.
      apply lookup_insert_Some in Hc as [[<- <-] | [_ Hc]].
      * right. rewrite Hsc. now left.
      * left. now apply Hfl.
Qed.

(** X18. In every run the requests are numbered 0, 1, 2, ... in the order
    they were issued, every one of them is for a non-empty id, and a request
    in flight is one of the logged requests, for the id its closure holds. *)
Theorem requests_are_logged (jid : option string) (store : JsVal) (trace : list Event) :
  let s := run (mount jid store) trace in
  (requests s).*1 = seq 0 (next_id s)
  /\ (forall r, r ∈ requests s -> r.2 <> "")
  /\ (forall id c, inflight s !! id = Some c ->
        (id, default "" (cl_jobId c)) ∈ requests s).
Proof.
  assert (H : forall s0, requests_logged s0 -> requests_logged (run s0 trace)).
  { induction trace as [|e trace IH]; intros s0 Hs0; [exact Hs0|].
    simpl. apply IH, requests_logged_step, Hs0. }
  exact (H _ (requests_logged_mount jid store)).
Qed.

Lemma idle_watcher_step (store : JsVal) (s : State) (e : Event) :
  idle_watcher store s ->
  match e with Render jid => has_id jid = false | _ => True end ->
  idle_watcher store (step s e).
Proof.
  open_state s. intros Hs He. state_eval2.
  destruct Hs as (Hsc & -> & -> & -> & -> & -> & -> & -> & -> & ->).
  destruct e as [jid| |id o| |].
  - unfold enabled_of. rewrite He. cbn [andb].
    destruct s_m; split_all; auto.
  - split_all; auto.
  - rewrite lookup_empty. split_all; auto.
  - destruct s_m; split_all; auto.
  - destruct s_m; split_all; auto.
Qed.

(** X19. A watcher that is only ever given a null or empty id never issues
    a request: after any run the request log is empty, the timer is off, the
    view and the error are null, and neither the callback nor the job list
    was touched. *)
Theorem null_id_never_fetches (jid : option string) (store : JsVal) (trace : list Event) :
  has_id jid = false ->
  null_renders trace = true ->
  let s := run (mount jid store) trace in
  requests s = [] /\ interval s = false /\ job s = None /\ error s = None
  /\ done_calls s = [] /\ allJobs s = store.
Proof.
  intros Hid Hnull.
  assert (Hidle : idle_watcher store (run (mount jid store) trace)).
  { assert (H0 : idle_watcher store (mount jid store)).
    { state_eval2. unfold enabled_of. rewrite Hid. cbn [andb]. split_all; auto. }
    revert H0 Hnull. generalize (mount jid store).
    induction trace as [|e trace IH]; intros s0 Hs0 Hn; [exact Hs0|].
    simpl in Hn. apply andb_true_iff in Hn as [He Hn].
    simpl. apply IH; [|exact Hn]. apply idle_watcher_step; [exact Hs0|].
    destruct e; try exact I. now apply negb_true_iff in He. }
  destruct Hidle as (_ & _ & Ht & _ & Hr & _ & Hj & He & Hd & Ha).
  cbv zeta. auto 10.
Qed.

Lemma unmounted_step (s : State) (e : Event) :
  mounted s = false -> interval s = false -> isActive s = false ->
  let s' := step s e in
  mounted s' = false /\ interval s' = false /\ isActive s' = false
  /\ requests s' = requests s /\ job s' = job s /\ error s' = error s.
Proof.
  open_state s. intros Hm Ht Ha. state_eval. subst s_m s_tm s_act.
  destruct e as [jid| |id o| |]; try (split_all; reflexivity).
  destruct (s_fl !! id) as [c|]; [|split_all; reflexivity].
  destruct o as [result|message]; [|split_all; reflexivity].
  destruct (is_done result); [|split_all; reflexivity].
  destruct onDone as [cb|]; [|split_all; reflexivity].
  destruct (cb _) as [[upd|]|e]; split_all; reflexivity.
Qed.

Lemma unmount_facts (s : State) :
  effect_consistent s ->
  let s' := step s Unmount in
  mounted s' = false /\ interval s' = false /\ isActive s' = false
  /\ requests s' = requests s.
Proof.
  open_state s. intros Hs. state_eval. destruct Hs as [-> ->].
  destruct s_m, s_en; split_all; reflexivity.
Qed.

(** X20. After the component is unmounted the timer and the liveness flag
    are off for good and no request is issued any more, whatever happens
    later. *)
Theorem no_request_after_unmount (s : State) (trace : list Event) :
  reachable onDone s ->
  let s' := run (step s Unmount) trace in
  requests s' = requests s /\ interval s' = false /\ isActive s' = false
  /\ mounted s' = false.
Proof.
  intros Hreach.
  destruct (unmount_facts s (reachable_consistent onDone s Hreach)) as (Hm & Ht & Ha & Hr).
  revert Hm Ht Ha Hr. generalize (step s Unmount).
  induction trace as [|e trace IH]; intros s0 Hm Ht Ha Hr; [cbn; auto 10|].
  simpl. destruct (unmounted_step s0 e Hm Ht Ha) as (Hm' & Ht' & Ha' & Hr' & _).
  apply IH; auto. congruence.
Qed.

Lemma tick_after_render (s : State) (jid : option string) :
  effect_consistent s -> mounted s = true ->
  enabled_of jid (job s) = true ->
  let s1 := step s (Render jid) in
  let s2 := step s1 TimerFires in
  interval s1 = true
  /\ requests s2 = requests s1 ++ [(next_id s1, default "" jid)]
  /\ inflight s2 !! next_id s1 = Some {| cl_jobId := jid; cl_liveJob := job s |}.
Proof.
  open_state s. intros Hs Hm Hen. state_eval. destruct Hs as [-> ->]. subst s_m.
  rewrite Hen. apply andb_true_iff in Hen as [Hid _].
  destruct s_en; cbn [andb]; rewrite ?Hid; split_all;
    try reflexivity; apply lookup_insert_eq.
Qed.

(** X21. A result whose status is pending or processing keeps the watcher
    polling: it becomes the live view without calling the callback, the timer
    is on after the next render, and the next timer event issues one more
    request for the watched id, whose closure holds that result as its live
    view. *)
Theorem pollable_result_polls_again
    (s : State) (id : nat) (c : PollClosure) (result : obj) (jid : option string) :
  reachable onDone s ->
  mounted s = true ->
  inflight s !! id = Some c ->
  has_id jid = true ->
  prop result "status" = JStr "pending" \/ prop result "status" = JStr "processing" ->
  let s1 := step s (Settles id (Resolved result)) in
  let s2 := step s1 (Render jid) in
  let s3 := step s2 TimerFires in
  job s1 = Some result /\ done_calls s1 = done_calls s
  /\ interval s2 = true
  /\ requests s3 = requests s2 ++ [(next_id s2, default "" jid)]
  /\ inflight s3 !! next_id s2 = Some {| cl_jobId := jid; cl_liveJob := Some result |}.
Proof.
  intros Hreach Hm Hc Hid Hst s1 s2 s3.
  assert (Hjob : job s1 = Some result) by now apply (settle_resolved_job onDone s id c).
  assert (Hnd : is_done result = false).
  { unfold is_done. destruct Hst as [-> | ->]; reflexivity. }
  assert (Hen : enabled_of jid (job s1) = true).
  { rewrite Hjob. unfold enabled_of, pollable. rewrite Hid.
    destruct Hst as [-> | ->]; reflexivity. }
  assert (Hcons : effect_consistent s1)
    by now apply (reachable_consistent onDone), reachable_step.
  assert (Hm1 : mounted s1 = true).
  { destruct (settle_keeps_effect s id (Resolved result)) as (Hm1 & _).
    fold s1 in Hm1. congruence. }
  destruct (tick_after_render s1 jid Hcons Hm1 Hen) as (Ht & Hr & Hfl).
  fold s2 in Ht, Hr, Hfl. fold s3 in Hr, Hfl. rewrite Hjob in Hfl.
  split_all; auto.
  subst s1. rewrite (settle_done_calls onDone s id c result Hc), Hnd. apply app_nil_r.
Qed.

(** X22. Changing the watched id while the timer runs does not restart the
    timer and issues no request at once; the next timer event fetches the
    new id, because the tick calls the callback saved by the latest render. *)
Theorem next_tick_fetches_new_id (s : State) (jid' : option string) :
  reachable onDone s ->
  mounted s = true ->
  interval s = true ->
  enabled_of jid' (job s) = true ->
  let s1 := step s (Render jid') in
  let s2 := step s1 TimerFires in
  requests s1 = requests s /\ inflight s1 = inflight s /\ interval s1 = true
  /\ requests s2 = requests s ++ [(next_id s, default "" jid')]
  /\ inflight s2 !! next_id s = Some {| cl_jobId := jid'; cl_liveJob := job s |}.
Proof.
  intros Hreach Hm Ht Hen.
  pose proof (reachable_consistent onDone s Hreach) as Hcons. revert Hcons Hm Ht Hen.
  open_state s. intros Hs Hm Ht Hen. state_eval. destruct Hs as [Ha Ht']. subst s_m.
  cbn [andb] in *. subst s_act. rewrite Ht in Ht'. subst s_en.
  rewrite Hen. apply andb_true_iff in Hen as [Hid _]. cbn. rewrite Ht, Hid.
  split_all; try reflexivity. apply lookup_insert_eq.
Qed.

Lemma at_rest_step (s0 s : State) (e : Event) :
  pollable (job s0) = false ->
  at_rest s0 s -> at_rest s0 (step s e).
Proof.
  open_state s. intros Hnp Hs. state_eval2.
  destruct Hs as ([-> Ht] & -> & -> & -> & -> & -> & ->).
  symmetry in Ht.
  assert (Hoff : forall jid, enabled_of jid (job s0) = false)
    by (intros jid; now apply not_pollable_disabled).
  destruct e as [jid| |id o| |].
  - rewrite Hoff. destruct s_m, s_en; cbn [andb] in *; try discriminate;
      split_all; reflexivity.
  - split_all; auto.
  - rewrite lookup_empty. split_all; auto.
  - destruct s_m, s_en; cbn [andb] in *; try discriminate; split_all; reflexivity.
  - destruct s_m, s_en; cbn [andb] in *; try discriminate; split_all; reflexivity.
Qed.

(** X23. A rendered view that is not pending or processing is final when
    nothing is in flight: whatever ids are passed and whatever timer events
    follow, no request is issued, the view stays, and neither the callback
    nor the job list is touched again. *)
Theorem finished_view_is_final (s : State) (jid : option string) (trace : list Event) :
  reachable onDone s ->
  pollable (job s) = false ->
  inflight s = ∅ ->
  let s' := run (step s (Render jid)) trace in
  requests s' = requests s /\ job s' = job s /\ interval s' = false
  /\ done_calls s' = done_calls s /\ allJobs s' = allJobs s.
Proof.
  intros Hreach Hnp Hfl.
  assert (H1 : at_rest s (step s (Render jid))).
  { pose proof (reachable_consistent onDone s Hreach) as Hcons.
    pose proof (effect_consistent_step onDone s (Render jid) Hcons) as Hcons1.
    destruct (render_disabled onDone s jid Hcons
                (not_pollable_disabled jid _ Hnp)) as (Ht & _ & Hr & Hi).
    split; [exact Hcons1|]. split; [exact Ht|]. split; [congruence|].
    split; [|split; [exact Hr|]].
    - clear. open_state s. state_eval. destruct s_m; [|reflexivity].
      destruct (enabled_of jid s_j), s_en; try reflexivity; now destruct (has_id jid).
    - clear. open_state s. state_eval. destruct s_m; [|split; reflexivity].
      destruct (enabled_of jid s_j), s_en; try (split; reflexivity);
        destruct (has_id jid); split; reflexivity. }
  assert (Hrest : at_rest s (run (step s (Render jid)) trace)).
  { revert H1. generalize (step s (Render jid)).
    induction trace as [|e trace IH]; intros s1 Hs1; [exact Hs1|].
    simpl. apply IH, at_rest_step; assumption. }
  destruct Hrest as (_ & Ht & _ & Hj & Hr & Hd & Ha).
  cbv zeta. auto 10.
Qed.

End WatcherRuns.

(** ** The watcher theorems at concrete runs *)

Lemma failed_fetch_is_transient_witness :
  let s := mount (Some "j1") one_pending_job in
  let s' := step standards_onDone s (Settles 0 (Rejected (Some "Network Error"))) in
  job s' = job s /\ error s' = Some "Network Error".
Proof.
  intros s s'.
  assert (Hreach : reachable standards_onDone s)
    by (exists (Some "j1"), one_pending_job, []; reflexivity).
  assert (Hc : inflight s !! 0%nat = Some {| cl_jobId := Some "j1"; cl_liveJob := None |})
    by reflexivity.
  destruct (failed_fetch_is_transient standards_onDone s 0 _ (Some "Network Error")
              Hreach eq_refl Hc) as (Hj & He & _).
  split; [exact Hj | exact He].
Defined.

Lemma null_id_never_fetches_witness :
  requests (run standards_onDone (mount None one_pending_job)
              [TimerFires; Render (Some ""); TimerFires; Render None; Unmount])
  = [].
Proof.
  destruct (null_id_never_fetches standards_onDone None one_pending_job
              [TimerFires; Render (Some ""); TimerFires; Render None; Unmount])
    as (Hr & _); [reflexivity | reflexivity | exact Hr].
Defined.

Lemma no_request_after_unmount_witness :
  requests (run standards_onDone
              (step standards_onDone (mount (Some "j1") one_pending_job) Unmount)
              [TimerFires; Render (Some "j1"); TimerFires])
  = [(0%nat, "j1")].
Proof.
  destruct (no_request_after_unmount standards_onDone
              (mount (Some "j1") one_pending_job)
              [TimerFires; Render (Some "j1"); TimerFires]) as (Hr & _).
  - exists (Some "j1"), one_pending_job, []. reflexivity.
  - rewrite Hr. reflexivity.
Defined.

Lemma pollable_result_polls_again_witness :
  let s1 := step standards_onDone (mount (Some "j1") one_pending_job)
              (Settles 0 (Resolved (job_with_status "j1" "processing"))) in
  let s2 := step standards_onDone s1 (Render (Some "j1")) in
  interval s2 = true
  /\ requests (step standards_onDone s2 TimerFires)
     = requests s2 ++ [(next_id s2, "j1")].
Proof.
  destruct (pollable_result_polls_again standards_onDone
              (mount (Some "j1") one_pending_job) 0
              {| cl_jobId := Some "j1"; cl_liveJob := None |}
              (job_with_status "j1" "processing") (Some "j1"))
    as (_ & _ & Ht & Hr & _).
  - exists (Some "j1"), one_pending_job, []. reflexivity.
  - reflexivity.
  - reflexivity.
  - reflexivity.
  - right. reflexivity.
  - split; [exact Ht | exact Hr].
Defined.

Lemma next_tick_fetches_new_id_witness :
  let s := mount (Some "j1") one_pending_job in
  let s1 := step standards_onDone s (Render (Some "j2")) in
  requests s1 = [(0%nat, "j1")]
  /\ requests (step standards_onDone s1 TimerFires) = [(0%nat, "j1"); (1%nat, "j2")].
Proof.
  destruct (next_tick_fetches_new_id standards_onDone
              (mount (Some "j1") one_pending_job) (Some "j2"))
    as (Hr1 & _ & _ & Hr2 & _).
  - exists (Some "j1"), one_pending_job, []. reflexivity.
  - reflexivity.
  - reflexivity.
  - reflexivity.
  - split; [rewrite Hr1 | rewrite Hr2]; reflexivity.
Defined.

Lemma finished_view_is_final_witness :
  let s := step standards_onDone (mount (Some "j1") one_pending_job)
             (Settles 0 (Resolved (job_with_status "j1" "failed"))) in
  requests (run standards_onDone (step standards_onDone s (Render (Some "j1")))
              [TimerFires; Render (Some "j2"); TimerFires])
  = requests s.
Proof.
  intros s.
  destruct (finished_view_is_final standards_onDone s (Some "j1")
              [TimerFires; Render (Some "j2"); TimerFires]) as (Hr & _).
  - exists (Some "j1"), one_pending_job,
      [Settles 0 (Resolved (job_with_status "j1" "failed"))]. reflexivity.
  - reflexivity.
  - reflexivity.
  - exact Hr.
Defined.
